(** * Realstate: the Zap Imoveis rental scraper and its SQLite store

    A shallow embedding of [realstate/scraper.py], [realstate/storage.py]
    and the collection run of [realstate/main.py], and the properties their
    specification states.

    Layout of the development:
    - [Py]      the Python values the code manipulates: exceptions, strings
                (code points below 256), floats (IEEE binary64) and the
                built-in conversions [float], [int], [str.strip], ...;
    - [Json]    what [json.loads] returns;
    - [Scraper] [ZapScraper]: field extraction, normalisation, pagination;
    - [Storage] [RealEstateDatabase]: schema, what SQLite keeps of a bound
                parameter, upserts, transactions, the queries;
    - [Main]    [_resolve_neighborhoods] and [single_run];
    - the vocabulary of the properties and the fixtures of the tests;
    - the theorems, one block per property. *)

From Stdlib Require Import ZArith List String Ascii Bool Lia DecimalString Sorted.
From Stdlib Require Import Floats.PrimFloat Floats.SpecFloat Floats.FloatOps.
From Stdlib Require DecimalPos DecimalZ.
From stdpp Require Import gmap strings list.

#[local] Set Warnings "-clear-no-such-hyp".

Local Open Scope string_scope.
Local Open Scope list_scope.

(* ===================================================================== *)
(** * Python values *)
(* ===================================================================== *)

Module Py.

(** The exceptions the modelled code can raise. *)
Inductive exc : Type :=
| ValueError
| OverflowError
| ZeroDivisionError
| AttributeError
| RuntimeError
| OSError
| TransportError (msg : string).

(** The outcome of a Python call: a value, or a raised exception. *)
Inductive result (A : Type) : Type :=
| Ok (a : A)
| Raise (e : exc).
Arguments Ok {A} a.
Arguments Raise {A} e.

Definition rbind {A B} (r : result A) (k : A -> result B) : result B :=
  match r with
  | Ok a => k a
  | Raise e => Raise e
  end.

(** ** Strings

    A [str] is modelled by a [string] whose characters are the code points
    below 256. *)

(** [str.isspace] on one character: TAB..CR, FS..US, space, NEL, NBSP. *)
Definition isspace (c : ascii) : bool :=
  let n := nat_of_ascii c in
  ((9 <=? n)%nat && (n <=? 13)%nat) || ((28 <=? n)%nat && (n <=? 32)%nat)
  || (n =? 133)%nat || (n =? 160)%nat.

Fixpoint lstrip (s : string) : string :=
  match s with
  | String c r => if isspace c then lstrip r else s
  | EmptyString => EmptyString
  end.

Fixpoint rstrip (s : string) : string :=
  match s with
  | String c r =>
      match rstrip r with
      | EmptyString => if isspace c then EmptyString else String c EmptyString
      | r' => String c r'
      end
  | EmptyString => EmptyString
  end.

(** [s.strip()] *)
Definition strip (s : string) : string := rstrip (lstrip s).

(** [s.replace(c, "")] for a one-character [c]. *)
Fixpoint remove_char (c : ascii) (s : string) : string :=
  match s with
  | String d r => if Ascii.eqb c d then remove_char c r else String d (remove_char c r)
  | EmptyString => EmptyString
  end.

(** [s.startswith(p)] *)
Definition startswith (p s : string) : bool := String.prefix p s.

Definition upper_char (c : ascii) : ascii :=
  let n := nat_of_ascii c in
  if ((97 <=? n)%nat && (n <=? 122)%nat) then ascii_of_nat (n - 32) else c.

Definition lower_char (c : ascii) : ascii :=
  let n := nat_of_ascii c in
  if ((65 <=? n)%nat && (n <=? 90)%nat) then ascii_of_nat (n + 32) else c.

(** [s.upper()], exact on ASCII; the other code points are left as they are
    (none of them maps to an ASCII letter sequence that the code compares
    with). *)
Fixpoint upper (s : string) : string :=
  match s with
  | String c r => String (upper_char c) (upper r)
  | EmptyString => EmptyString
  end.

Fixpoint lower (s : string) : string :=
  match s with
  | String c r => String (lower_char c) (lower r)
  | EmptyString => EmptyString
  end.

(** Truth value of a string: non-empty. *)
Definition str_truthy (s : string) : bool :=
  match s with
  | EmptyString => false
  | String _ _ => true
  end.

(** The decimal text of an integer. *)
Definition decimal (z : Z) : string :=
  DecimalString.NilZero.string_of_int (Z.to_int z).

(** The limit that CPython puts on the conversions between [int] and [str]
    ([sys.int_max_str_digits], 4300 unless the interpreter is told
    otherwise): a conversion of more digits raises [ValueError]. *)
Definition int_max_str_digits : nat := 4300.

(** The number of digits of [decimal z], its sign left out. *)
Definition digits_of (z : Z) : nat := String.length (decimal (Z.abs z)).

(** [str(n)] for an integer. *)
Definition str_of_int (z : Z) : result string :=
  if (int_max_str_digits <? digits_of z)%nat then Raise ValueError
  else Ok (decimal z).

(** ** Decimal literals, shared by [float(str)] and [int(str)] *)

Definition is_digit (c : ascii) : bool :=
  let n := nat_of_ascii c in (48 <=? n)%nat && (n <=? 57)%nat.

Definition digit_val (c : ascii) : Z := Z.of_nat (nat_of_ascii c - 48).

(** The rest of a [digitpart]: digits, each optionally preceded by one
    underscore. Returns the digits read and what is left. *)
Fixpoint digits_tail (s : list ascii) : list Z * list ascii :=
  match s with
  | c :: r =>
      if is_digit c then
        let '(ds, r') := digits_tail r in (digit_val c :: ds, r')
      else if Ascii.eqb c "_" then
        match r with
        | d :: r2 =>
            if is_digit d then
              let '(ds, r') := digits_tail r2 in (digit_val d :: ds, r')
            else ([], s)
        | [] => ([], s)
        end
      else ([], s)
  | [] => ([], [])
  end.

(** [digitpart ::= digit (["_"] digit)*] *)
Definition digitpart (s : list ascii) : option (list Z * list ascii) :=
  match s with
  | c :: r =>
      if is_digit c then
        let '(ds, r') := digits_tail r in Some (digit_val c :: ds, r')
      else None
  | [] => None
  end.

Definition Z_of_digits (ds : list Z) : Z :=
  fold_left (fun acc d => (10 * acc + d)%Z) ds 0%Z.

(** An optional sign: [true] for "-". *)
Definition take_sign (s : list ascii) : bool * list ascii :=
  match s with
  | c :: r =>
      if Ascii.eqb c "-" then (true, r)
      else if Ascii.eqb c "+" then (false, r)
      else (false, s)
  | [] => (false, [])
  end.

(** What [int] and [float] skip at both ends of a text: the blanks of C's
    [isspace] (TAB..CR and the space), and NEL and NBSP, which they first
    turn into spaces. Unlike [str.strip] they do not skip FS..US. *)
Definition is_blank (c : ascii) : bool :=
  let n := nat_of_ascii c in
  ((9 <=? n)%nat && (n <=? 13)%nat) || (n =? 32)%nat
  || (n =? 133)%nat || (n =? 160)%nat.

Fixpoint skip_blanks (s : list ascii) : list ascii :=
  match s with
  | c :: r => if is_blank c then skip_blanks r else s
  | [] => []
  end.

Definition trim_blanks (s : list ascii) : list ascii :=
  rev (skip_blanks (rev (skip_blanks s))).

(** [int(s)] in base 10: [None] stands for [ValueError], which a literal of
    more than [int_max_str_digits] digits raises too. *)
Definition int_of_str (s : string) : option Z :=
  let '(neg, r) := take_sign (trim_blanks (list_ascii_of_string s)) in
  match digitpart r with
  | Some (ds, []) =>
      if (int_max_str_digits <? length ds)%nat then None
      else Some (if neg then (- Z_of_digits ds)%Z else Z_of_digits ds)
  | _ => None
  end.

(** ** Floats: IEEE 754 binary64, as the kernel's primitive floats *)

(** [float(n)] for an integer: round to nearest even, [OverflowError] when
    the rounded value is not finite. *)
Definition float_of_int (z : Z) : result float :=
  match binary_normalize prec emax z 0 false with
  | S754_infinity _ => Raise OverflowError
  | f => Ok (SF2Prim f)
  end.

(** The double nearest to [(-1)^neg * m * 10^e10]. *)
Definition float_of_decimal (neg : bool) (m e10 : Z) : float :=
  match m with
  | Z0 => SF2Prim (S754_zero neg)
  | Zneg _ => nan
  | Zpos _ =>
      match e10 with
      | Zneg k =>
          let '(q, e', l) := SFdiv_core_binary prec emax m 0 (10 ^ Zpos k) 0 in
          SF2Prim (binary_round_aux prec emax neg q e' l)
      | _ =>
          SF2Prim (binary_normalize prec emax
                     (if neg then - (m * 10 ^ e10) else m * 10 ^ e10)%Z 0 neg)
      end
  end.

(** [exponent ::= ("e" | "E") ["+" | "-"] digitpart], up to the end. *)
Definition take_exponent (s : list ascii) : option Z :=
  match s with
  | [] => Some 0%Z
  | c :: r =>
      if Ascii.eqb (lower_char c) "e" then
        let '(neg, r1) := take_sign r in
        match digitpart r1 with
        | Some (ds, []) => Some (if neg then (- Z_of_digits ds)%Z else Z_of_digits ds)
        | _ => None
        end
      else None
  end.

(** [floatnumber ::= ([digitpart] "." digitpart | digitpart ["."]) [exponent]]:
    the integer made of all its digits and the power of ten. *)
Definition take_floatnumber (s : list ascii) : option (Z * Z) :=
  match digitpart s with
  | Some (ip, r) =>
      match r with
      | c :: r1 =>
          if Ascii.eqb c "." then
            match digitpart r1 with
            | Some (fp, r2) =>
                match take_exponent r2 with
                | Some e => Some (Z_of_digits (ip ++ fp), (e - Z.of_nat (length fp))%Z)
                | None => None
                end
            | None =>
                match take_exponent r1 with
                | Some e => Some (Z_of_digits ip, e)
                | None => None
                end
            end
          else
            match take_exponent r with
            | Some e => Some (Z_of_digits ip, e)
            | None => None
            end
      | [] => Some (Z_of_digits ip, 0%Z)
      end
  | None =>
      match s with
      | c :: r1 =>
          if Ascii.eqb c "." then
            match digitpart r1 with
            | Some (fp, r2) =>
                match take_exponent r2 with
                | Some e => Some (Z_of_digits fp, (e - Z.of_nat (length fp))%Z)
                | None => None
                end
            | None => None
            end
          else None
      | [] => None
      end
  end.

(** [float(s)] for a string: [None] stands for [ValueError]. *)
Definition float_of_str (s : string) : option float :=
  let '(neg, r) := take_sign (trim_blanks (list_ascii_of_string s)) in
  let word := lower (string_of_list_ascii r) in
  if (String.eqb word "inf" || String.eqb word "infinity")%bool then
    Some (if neg then neg_infinity else infinity)
  else if String.eqb word "nan" then Some nan
  else
    match take_floatnumber r with
    | Some (m, e10) => Some (float_of_decimal neg m e10)
    | None => None
    end.

(** Truth value of a float: [x != 0.0] (so NaN is true, -0.0 is false). *)
Definition float_truthy (x : float) : bool := negb (PrimFloat.eqb x 0%float).

(** [x / y] on floats. *)
Definition truediv (x y : float) : result float :=
  if PrimFloat.eqb y 0%float then Raise ZeroDivisionError
  else Ok (PrimFloat.div x y).

(** [int(x)] for a float: truncation towards zero. *)
Definition int_of_float (x : float) : result Z :=
  match Prim2SF x with
  | S754_zero _ => Ok 0%Z
  | S754_infinity _ => Raise OverflowError
  | S754_nan => Raise ValueError
  | S754_finite s m e =>
      let a := match e with
               | Zneg k => Z.shiftr (Zpos m) (Zpos k)
               | _ => Z.shiftl (Zpos m) e
               end in
      Ok (if s then (- a)%Z else a)
  end.

(** ** Timestamps

    A timezone-aware UTC [datetime]. [isoformat()] is injective on these, so
    the text stored in the database is identified with the value. *)
Record datetime : Type := mkDatetime {
  year : Z; month : Z; day : Z;
  hour : Z; minute : Z; second : Z; microsecond : Z
}.

(** A calendar date, as SQLite's [date()] gives it ("YYYY-MM-DD"). *)
Record date : Type := mkDate { d_year : Z; d_month : Z; d_day : Z }.

Definition date_of (t : datetime) : date :=
  {| d_year := year t; d_month := month t; d_day := day t |}.

#[global] Instance datetime_eq_dec : EqDecision datetime.
Proof. solve_decision. Defined.

#[global] Instance date_eq_dec : EqDecision date.
Proof. solve_decision. Defined.

#[global] Instance exc_eq_dec : EqDecision exc.
Proof. solve_decision. Defined.

End Py.
Import Py.

(* ===================================================================== *)
(** * JSON documents, as [json.loads] returns them *)
(* ===================================================================== *)

Module Json.

(** [None], [bool], [int], [float], [str], [list] and [dict]. A [dict] is
    given by its items. *)
#[local] Unset Elimination Schemes.
Inductive json : Type :=
| JNull
| JBool (b : bool)
| JInt (z : Z)
| JFloat (x : float)
| JStr (s : string)
| JList (items : list json)
| JDict (items : list (string * json)).
#[local] Set Elimination Schemes.

Definition dict : Type := list (string * json).

Fixpoint lookup_key (d : dict) (k : string) : option json :=
  match d with
  | (k', v) :: r => if String.eqb k k' then Some v else lookup_key r k
  | [] => None
  end.

(** [d.get(k)]: the value, [None] when the key is missing. *)
Definition get (d : dict) (k : string) : json :=
  match lookup_key d k with
  | Some v => v
  | None => JNull
  end.

(** [k in d] *)
Definition contains (d : dict) (k : string) : bool :=
  match lookup_key d k with
  | Some _ => true
  | None => false
  end.

(** Truth value of an object. *)
Definition truthy (v : json) : bool :=
  match v with
  | JNull => false
  | JBool b => b
  | JInt z => negb (z =? 0)%Z
  | JFloat x => float_truthy x
  | JStr s => str_truthy s
  | JList l => match l with [] => false | _ => true end
  | JDict d => match d with [] => false | _ => true end
  end.

(** [a or b] *)
Definition or_else (a b : json) : json := if truthy a then a else b.

End Json.
Import Json.

(* ===================================================================== *)
(** * realstate/config.py *)
(* ===================================================================== *)

Module Config.

(** A neighbourhood of Sao Paulo that should be scraped. *)
Record Neighborhood : Type := mkNeighborhood { name : string; query : string }.

Definition Saude : string := "Sa" ++ String (ascii_of_nat 250) "de".

Definition DEFAULT_NEIGHBORHOODS : list Neighborhood :=
  [ mkNeighborhood "Pinheiros" "Pinheiros";
    mkNeighborhood "Vila Madalena" "Vila Madalena";
    mkNeighborhood "Moema" "Moema";
    mkNeighborhood Saude Saude ].

Definition ZAP_API_URL : string := "https://glue-api.zapimoveis.com.br/v3/listings".
Definition DEFAULT_PAGE_SIZE : Z := 50.
Definition DEFAULT_TIMEOUT : Z := 30.
Definition DEFAULT_DELAY_BETWEEN_REQUESTS : float := 1.5%float.

End Config.
Import Config.

(* ===================================================================== *)
(** * realstate/scraper.py *)
(* ===================================================================== *)

Module Scraper.

(** A simplified rental listing. *)
Record Listing : Type := mkListing {
  listing_id : string;
  title : string;
  neighborhood : string;
  street : string;
  city : string;
  state : string;
  area_m2 : option float;
  bedrooms : option Z;
  bathrooms : option Z;
  parking_spaces : option Z;
  rent_price : option float;
  condo_fee : option float;
  price_per_m2 : option float;
  furnished : bool;
  url : string;
  captured_at : datetime
}.

(** ** [urllib.parse.urlencode] *)

Definition hex_digit (n : nat) : ascii :=
  if (n <? 10)%nat then ascii_of_nat (48 + n) else ascii_of_nat (55 + n).

(** "%XX" for one byte. *)
Definition percent (b : nat) : string :=
  String "%" (String (hex_digit (b / 16)) (String (hex_digit (b mod 16)) EmptyString)).

Definition always_safe (c : ascii) : bool :=
  let n := nat_of_ascii c in
  ((48 <=? n)%nat && (n <=? 57)%nat) || ((65 <=? n)%nat && (n <=? 90)%nat)
  || ((97 <=? n)%nat && (n <=? 122)%nat)
  || Ascii.eqb c "_" || Ascii.eqb c "." || Ascii.eqb c "-" || Ascii.eqb c "~".

(** [quote_plus] of one character: its UTF-8 bytes, percent-encoded. *)
Definition quote_plus_char (c : ascii) : string :=
  let n := nat_of_ascii c in
  if always_safe c then String c EmptyString
  else if Ascii.eqb c " " then "+"
  else if (n <? 128)%nat then percent n
  else percent (192 + n / 64) ++ percent (128 + n mod 64).

Fixpoint quote_plus (s : string) : string :=
  match s with
  | String c r => quote_plus_char c ++ quote_plus r
  | EmptyString => EmptyString
  end.

Fixpoint urlencode (params : list (string * string)) : string :=
  match params with
  | [] => EmptyString
  | [(k, v)] => quote_plus k ++ "=" ++ quote_plus v
  | (k, v) :: r => quote_plus k ++ "=" ++ quote_plus v ++ "&" ++ urlencode r
  end.

(** ** The outside world of a scraper *)

(** What one call of the transport, followed by the decoding of its body,
    comes to. *)
Inductive response : Type :=
| Failed (e : exc)          (* the transport raised *)
| Undecodable               (* the body is not UTF-8 *)
| NotJson                   (* the body is not a JSON document *)
| Body (payload : json).

(** The scraper object. The transport is any callable: its answer may depend
    on the URLs it was asked before. *)
Record ZapScraper : Type := mkZapScraper {
  neighborhoods : list Neighborhood;
  page_size : Z;
  timeout : Z;
  delay : float;
  transport : list string -> string -> response
}.

(** [ZapScraper.__init__] *)
Definition init (nbs : option (list Neighborhood)) (size tmo : Z) (dly : float)
    (tr : list string -> string -> response) : ZapScraper :=
  {| neighborhoods :=
       match nbs with
       | Some (n :: r) => n :: r
       | _ => DEFAULT_NEIGHBORHOODS
       end;
     page_size := size; timeout := tmo; delay := dly; transport := tr |}.

(** The world the scraper acts on: the URLs requested so far (oldest first),
    how many times the clock was read, the pauses taken, and the kernel
    under the process: [kernel_refuses taken d] tells whether, after the
    pauses [taken], it refuses to suspend the process for [d] seconds (it
    does when the wake-up time is beyond its range). *)
Record World : Type := mkWorld {
  requests : list string;
  clock_reads : nat;
  sleeps : list float;
  kernel_refuses : list float -> float -> bool
}.

(** Nothing requested, read or paused yet, over a kernel that grants every
    pause. *)
Definition initial_world : World :=
  {| requests := []; clock_reads := 0; sleeps := [];
     kernel_refuses := fun _ _ => false |}.

(** Computations that act on the world and may raise. *)
Definition M (A : Type) : Type := World -> result A * World.

Definition ret {A} (a : A) : M A := fun w => (Ok a, w).

Definition bind {A B} (m : M A) (k : A -> M B) : M B :=
  fun w =>
    match m w with
    | (Ok a, w') => k a w'
    | (Raise e, w') => (Raise e, w')
    end.

Definition lift {A} (r : result A) : M A := fun w => (r, w).

Notation "'let*' x ':=' m 'in' k" := (bind m (fun x => k))
  (at level 10, x name, m at level 100, k at level 200).
Notation "'try!' x ':=' r 'in' k" := (rbind r (fun x => k))
  (at level 10, x name, r at level 100, k at level 200).

Section WithClock.

(** [clock n] is what the [n]-th reading of [datetime.now(timezone.utc)]
    returns. *)
Variable clock : nat -> datetime.

Definition now : M datetime :=
  fun w =>
    (Ok (clock (clock_reads w)),
     {| requests := requests w; clock_reads := S (clock_reads w);
        sleeps := sleeps w; kernel_refuses := kernel_refuses w |}).

(** What [time.sleep(secs)] refuses by itself, for a float (CPython 3.11).
    The seconds are turned into nanoseconds, rounded away from zero and
    cast to 64 bits: a NaN raises [ValueError]; a product beyond
    [-2^63, 2^63] raises [OverflowError]; a negative number of nanoseconds
    raises [ValueError], and so does 2^63, which the cast wraps to
    [-2^63]. A negative zero is a zero. *)
Definition sleep_refusal (secs : float) : option exc :=
  if PrimFloat.is_nan secs then Some ValueError
  else
    let ns := PrimFloat.mul secs 1e9%float in
    if (PrimFloat.ltb ns (-0x1p63)%float || PrimFloat.ltb 0x1p63%float ns)%bool
    then Some OverflowError
    else if (PrimFloat.ltb ns 0%float || PrimFloat.eqb ns 0x1p63%float)%bool
    then Some ValueError
    else None.

(** [time.sleep(secs)]: the pause is taken unless [time.sleep] or the kernel
    refuses it. *)
Definition sleep (secs : float) : M unit :=
  fun w =>
    match sleep_refusal secs with
    | Some e => (Raise e, w)
    | None =>
        if kernel_refuses w (sleeps w) secs then (Raise OSError, w)
        else
          (Ok tt,
           {| requests := requests w; clock_reads := clock_reads w;
              sleeps := sleeps w ++ [secs]; kernel_refuses := kernel_refuses w |})
    end.

(** ** Networking helpers *)

Definition _build_params (self : ZapScraper) (nb : Neighborhood) (page : Z)
    : result (list (string * string)) :=
  try! page_text := str_of_int page in
  try! size_text := str_of_int (page_size self) in
  Ok [ ("addressCity", "Sao Paulo");
       ("addressState", "SP");
       ("addressNeighborhood", query nb);
       ("business", "RENTAL");
       ("category", "APARTMENT");
       ("listingType", "USED");
       ("page", page_text);
       ("size", size_text);
       ("order", "update");
       ("direction", "desc") ].

Definition _build_url (self : ZapScraper) (nb : Neighborhood) (page : Z)
    : result string :=
  try! params := _build_params self nb page in
  Ok (ZAP_API_URL ++ "?" ++ urlencode params)%string.

(** The URL is built first: when that raises, nothing is requested. *)
Definition _fetch_page (self : ZapScraper) (nb : Neighborhood) (page : Z) : M json :=
  fun w =>
    match _build_url self nb page with
    | Raise e => (Raise e, w)
    | Ok u =>
        let w' := {| requests := requests w ++ [u];
                     clock_reads := clock_reads w; sleeps := sleeps w;
                     kernel_refuses := kernel_refuses w |} in
        match transport self (requests w) u with
        | Failed e => (Raise e, w')
        | Undecodable => (Raise ValueError, w')
        | NotJson => (Raise RuntimeError, w')
        | Body payload => (Ok payload, w')
        end
    end.

(** The dicts of [payload["listings"]], unwrapped from their "listing" key
    where they have one. *)
Fixpoint unwrap_items (items : list json) : list dict :=
  match items with
  | [] => []
  | JDict item :: r =>
      match lookup_key item "listing" with
      | Some (JDict inner) => inner :: unwrap_items r
      | _ => item :: unwrap_items r
      end
  | _ :: r => unwrap_items r
  end.

(** [payload.get] needs a dict: anything else has no such attribute. *)
Definition _extract_raw_listings (payload : json) : result (list dict) :=
  match payload with
  | JDict d =>
      match get d "listings" with
      | JList items => Ok (unwrap_items items)
      | _ => Ok []
      end
  | _ => Raise AttributeError
  end.

(** ** Field extraction *)

Fixpoint first_id (raw : dict) (keys : list string) : option string :=
  match keys with
  | [] => None
  | key :: r =>
      match get raw key with
      | JStr value =>
          if str_truthy (strip value) then Some (strip value) else first_id raw r
      | _ => first_id raw r
      end
  end.

Definition id_keys : list string := ["id"; "listingId"; "detailId"].

Definition _get_listing_id (raw : dict) : option string := first_id raw id_keys.

Definition _safe_str (value : json) : string :=
  match value with
  | JStr s => strip s
  | _ => EmptyString
  end.

(** [bool] is a subclass of [int]: [True] and [False] take the numeric
    branch. *)
Definition _get_float (value : json) : result (option float) :=
  match value with
  | JNull => Ok None
  | JBool b => try! x := float_of_int (if b then 1 else 0)%Z in Ok (Some x)
  | JInt z => try! x := float_of_int z in Ok (Some x)
  | JFloat x => Ok (Some x)
  | JStr s => Ok (float_of_str (remove_char "," (remove_char "." s)))
  | _ => Ok None
  end.

Fixpoint first_number (elements : list json) : result (option float) :=
  match elements with
  | [] => Ok None
  | element :: r =>
      try! number := _get_float element in
      match number with
      | Some x => Ok (Some x)
      | None => first_number r
      end
  end.

Definition _get_first_number (value : json) : result (option float) :=
  match value with
  | JList (e :: r) =>
      try! number := first_number (e :: r) in
      match number with
      | Some x => Ok (Some x)
      | None => _get_float value
      end
  | _ => _get_float value
  end.

Definition _get_int (value : json) : result (option Z) :=
  match value with
  | JNull => Ok None
  | JBool b => Ok (Some (if b then 1 else 0)%Z)
  | JInt z => Ok (Some z)
  | JFloat x => try! z := int_of_float x in Ok (Some z)
  | JStr s => Ok (int_of_str (strip s))
  | _ => Ok None
  end.

(** [str(item).strip().upper()] is one of the two markers. The text of an
    item that is not a string (None, True, 12, 1.5, [..], {..}) is never
    one. *)
Definition is_marker (item : json) : bool :=
  match item with
  | JStr s =>
      let normalized := upper (strip s) in
      (String.eqb normalized "FURNISHED" || String.eqb normalized "MOBILIADO")%bool
  | _ => false
  end.

Definition has_marker (value : json) : bool :=
  match value with
  | JList items => existsb is_marker items
  | _ => false
  end.

Definition _is_furnished (raw : dict) : bool :=
  match get raw "furnished" with
  | JBool b => b
  | _ => (has_marker (get raw "amenities") || has_marker (get raw "features"))%bool
  end.

Fixpoint first_rental (items : list json) : option dict :=
  match items with
  | [] => None
  | JDict item :: r =>
      match get item "businessType" with
      | JStr s => if String.eqb s "RENTAL" then Some item else first_rental r
      | _ => first_rental r
      end
  | _ :: r => first_rental r
  end.

Fixpoint first_dict (items : list json) : option dict :=
  match items with
  | [] => None
  | JDict item :: _ => Some item
  | _ :: r => first_dict r
  end.

Definition _select_pricing_info (value : json) : dict :=
  match value with
  | JDict d => d
  | JList items =>
      match first_rental items with
      | Some item => item
      | None =>
          match first_dict items with
          | Some item => item
          | None => []
          end
      end
  | _ => []
  end.

Fixpoint first_price (info : dict) (keys : list string) : result (option float) :=
  match keys with
  | [] => Ok None
  | key :: r =>
      try! price := _get_float (get info key) in
      match price with
      | Some x => Ok (Some x)
      | None => first_price info r
      end
  end.

Definition _parse_price (info : dict) : result (option float) :=
  first_price info ["rentalTotalPrice"; "price"; "value"].

Definition _parse_fee (info : dict) : result (option float) :=
  _get_float (or_else (get info "monthlyCondoFee") (get info "condominium")).

Fixpoint first_url (raw : dict) (keys : list string) : option string :=
  match keys with
  | [] => None
  | key :: r =>
      match get raw key with
      | JStr value => if startswith "http" value then Some value else first_url raw r
      | JDict value =>
          match get value "href" with
          | JStr href => if startswith "http" href then Some href else first_url raw r
          | _ => first_url raw r
          end
      | _ => first_url raw r
      end
  end.

Definition _extract_url (raw : dict) : string :=
  match first_url raw ["url"; "link"; "detailUrl"] with
  | Some u => u
  | None =>
      match _get_listing_id raw with
      | Some listing_id => ("https://www.zapimoveis.com.br/imovel/" ++ listing_id)%string
      | None => "https://www.zapimoveis.com.br"
      end
  end.

(** ** Normalisation *)

Definition opt_truthy (o : option float) : bool :=
  match o with
  | Some x => float_truthy x
  | None => false
  end.

(** [a or b] on optional integers; [b] is evaluated only when needed. *)
Definition int_or (a : option Z) (b : result (option Z)) : result (option Z) :=
  match a with
  | Some z => if (z =? 0)%Z then b else Ok (Some z)
  | None => b
  end.

(** The [price_per_m2] block: the division is attempted only when both
    operands are true, and a division by zero is caught. *)
Definition compute_price_per_m2 (area rent_price : option float)
    : result (option float) :=
  match area, rent_price with
  | Some a, Some r =>
      if (float_truthy a && float_truthy r)%bool then
        match truediv r a with
        | Ok q => Ok (Some q)
        | Raise ZeroDivisionError => Ok None
        | Raise e => Raise e
        end
      else Ok None
  | _, _ => Ok None
  end.

Definition _normalise_listing (raw : dict) : M (option Listing) :=
  match _get_listing_id raw with
  | None => ret None
  | Some listing_id =>
      let address :=
        match or_else (get raw "address") (JDict []) with
        | JDict d => d
        | _ => []
        end in
      let neighborhood := _safe_str (get address "neighborhood") in
      let city := _safe_str (get address "city") in
      let state := _safe_str (get address "state") in
      let street := _safe_str (get address "street") in
      let* area := lift (_get_first_number (get raw "usableAreas")) in
      let* rooms := lift (_get_int (get raw "bedrooms")) in
      let* bedrooms := lift (int_or rooms (_get_int (get raw "rooms"))) in
      let* bathrooms := lift (_get_int (get raw "bathrooms")) in
      let* parking := lift (_get_int (get raw "parkingSpaces")) in
      let furnished := _is_furnished raw in
      let pricing_info := _select_pricing_info (get raw "pricingInfos") in
      let* rent_price := lift (_parse_price pricing_info) in
      let* condo_fee := lift (_parse_fee pricing_info) in
      let* price_per_m2 := lift (compute_price_per_m2 area rent_price) in
      let title :=
        let t := _safe_str (get raw "title") in
        let t := if str_truthy t then t else _safe_str (get raw "advertiseTitle") in
        if str_truthy t then t
        else if str_truthy neighborhood then ("Apartamento em " ++ neighborhood)%string
        else "Apartamento" in
      let url := _extract_url raw in
      let* captured_at := now in
      ret (Some {| listing_id := listing_id; title := title;
                   neighborhood := neighborhood; street := street;
                   city := city; state := state; area_m2 := area;
                   bedrooms := bedrooms; bathrooms := bathrooms;
                   parking_spaces := parking; rent_price := rent_price;
                   condo_fee := condo_fee; price_per_m2 := price_per_m2;
                   furnished := furnished; url := url;
                   captured_at := captured_at |})
  end.

(** ** Pagination

    A generator is modelled by what it has yielded when it stops, and how it
    stopped. *)
Inductive ending : Type :=
| Exhausted                 (* the generator returned *)
| Raised (e : exc)          (* an exception left the generator *)
| OutOfFuel.                (* the loop was cut by the model's fuel *)

Record walked : Type := mkWalked {
  emitted : list Listing;
  stop : ending;
  after : World
}.

(** The [for raw_listing in raw_listings] loop: the listings yielded, then
    the updated [seen_ids] or the exception that ended the loop. *)
Fixpoint for_raw_listings (raw_listings : list dict) (seen_ids : gset string)
    (w : World) : list Listing * result (gset string) * World :=
  match raw_listings with
  | [] => ([], Ok seen_ids, w)
  | raw_listing :: r =>
      match _normalise_listing raw_listing w with
      | (Raise e, w') => ([], Raise e, w')
      | (Ok None, w') => for_raw_listings r seen_ids w'
      | (Ok (Some listing), w') =>
          if bool_decide (listing_id listing ∈ seen_ids) then
            for_raw_listings r seen_ids w'
          else
            let '(ls, res, w'') :=
              for_raw_listings r ({[listing_id listing]} ∪ seen_ids) w' in
            (listing :: ls, res, w'')
      end
  end.

(** [max_pages is not None and page > max_pages] *)
Definition over_ceiling (max_pages : option Z) (page : Z) : bool :=
  match max_pages with
  | Some m => (m <? page)%Z
  | None => false
  end.

(** The [while True] loop of [iterate_listings], entered with the current
    [page] and [seen_ids]. *)
Fixpoint walk (fuel : nat) (self : ZapScraper) (nb : Neighborhood)
    (max_pages : option Z) (page : Z) (seen_ids : gset string) (w : World)
    : walked :=
  match fuel with
  | O => mkWalked [] OutOfFuel w
  | S fuel' =>
      if over_ceiling max_pages page then mkWalked [] Exhausted w
      else
        match _fetch_page self nb page w with
        | (Raise e, w1) => mkWalked [] (Raised e) w1
        | (Ok payload, w1) =>
            match _extract_raw_listings payload with
            | Raise e => mkWalked [] (Raised e) w1
            | Ok [] => mkWalked [] Exhausted w1
            | Ok raw_listings =>
                let '(ls, res, w2) := for_raw_listings raw_listings seen_ids w1 in
                match res with
                | Raise e => mkWalked ls (Raised e) w2
                | Ok seen_ids' =>
                    if (Z.of_nat (length raw_listings) <? page_size self)%Z then
                      mkWalked ls Exhausted w2
                    else
                      match (if float_truthy (delay self) then sleep (delay self) w2
                             else (Ok tt, w2)) with
                      | (Raise e, w3) => mkWalked ls (Raised e) w3
                      | (Ok _, w3) =>
                          let rest :=
                            walk fuel' self nb max_pages (page + 1) seen_ids' w3 in
                          mkWalked (ls ++ emitted rest) (stop rest) (after rest)
                      end
                end
            end
        end
  end.

(** Iterates through all listings for a neighbourhood. *)
Definition iterate_listings (fuel : nat) (self : ZapScraper) (nb : Neighborhood)
    (max_pages : option Z) (w : World) : walked :=
  walk fuel self nb max_pages 1 ∅ w.

(** The [for neighborhood in self.neighborhoods: yield from ...] loop. *)
Fixpoint scrape_over (fuel : nat) (self : ZapScraper) (nbs : list Neighborhood)
    (max_pages : option Z) (w : World) : walked :=
  match nbs with
  | [] => mkWalked [] Exhausted w
  | nb :: r =>
      let first := iterate_listings fuel self nb max_pages w in
      match stop first with
      | Exhausted =>
          let rest := scrape_over fuel self r max_pages (after first) in
          mkWalked (emitted first ++ emitted rest) (stop rest) (after rest)
      | _ => first
      end
  end.

(** Scrapes all configured neighbourhoods. *)
Definition scrape (fuel : nat) (self : ZapScraper) (max_pages : option Z)
    (w : World) : walked :=
  scrape_over fuel self (neighborhoods self) max_pages w.

End WithClock.

End Scraper.
Import Scraper.

(* ===================================================================== *)
(** * realstate/storage.py *)
(* ===================================================================== *)

Module Storage.

(** ** The schema

    A table is the list of its rows, oldest first. The surrogate key
    [price_history.id] is not modelled: no statement of the program reads
    it. *)

(** A row of [listings]; PRIMARY KEY [listing_id]. *)
Record listing_row : Type := mkListingRow {
  l_listing_id : string;
  l_title : string;
  l_neighborhood : string;
  l_street : string;
  l_city : string;
  l_state : string;
  l_area_m2 : option float;
  l_bedrooms : option Z;
  l_bathrooms : option Z;
  l_parking_spaces : option Z;
  l_furnished : Z;
  l_url : string;
  l_first_seen : datetime;
  l_last_seen : datetime
}.

(** A row of [price_history]; UNIQUE [(listing_id, captured_at)]. *)
Record price_row : Type := mkPriceRow {
  ph_listing_id : string;
  ph_captured_at : datetime;
  ph_rent_price : option float;
  ph_price_per_m2 : option float;
  ph_condo_fee : option float;
  ph_furnished : Z
}.

Record database : Type := mkDatabase {
  listings : list listing_row;
  price_history : list price_row
}.

(** [_ensure_schema] on a fresh file: both tables, empty. *)
Definition _ensure_schema : database := {| listings := []; price_history := [] |}.

Definition ph_key (r : price_row) : string * datetime :=
  (ph_listing_id r, ph_captured_at r).

(** The constraints the engine enforces: the primary key of [listings], the
    UNIQUE pair of [price_history] and its foreign key. *)
Record db_wf (db : database) : Prop := mkDbWf {
  wf_primary_key : NoDup (map l_listing_id (listings db));
  wf_unique : NoDup (map ph_key (price_history db));
  wf_foreign_key :
    forall r, In r (price_history db) ->
      In (ph_listing_id r) (map l_listing_id (listings db))
}.

(** ** INSERT ... ON CONFLICT ... DO UPDATE

    The row in conflict with the new one is replaced by [update old new];
    without a conflict the new row is appended. *)
Fixpoint upsert {R : Type} (conflict : R -> R -> bool) (update : R -> R -> R)
    (new : R) (rows : list R) : list R :=
  match rows with
  | [] => [new]
  | old :: rest =>
      if conflict old new then update old new :: rest
      else old :: upsert conflict update new rest
  end.

(** [int(b)] *)
Definition int_of_bool (b : bool) : Z := if b then 1%Z else 0%Z.

(** ** What SQLite keeps of a bound parameter

    [sqlite3] binds a Python [float] as a REAL, a Python [int] as a 64-bit
    INTEGER, a [str] as a TEXT and [None] as NULL. *)

(** A float in a REAL column: a NaN is stored as NULL and a negative zero
    as zero; every other value, the infinities included, is kept as it
    is. *)
Definition sql_real (x : float) : option float :=
  if PrimFloat.is_nan x then None
  else if PrimFloat.eqb x 0%float then Some 0%float
  else Some x.

Definition bind_real (v : option float) : option float :=
  match v with
  | Some x => sql_real x
  | None => None
  end.

Definition fits_int64 (z : Z) : bool := ((- 2 ^ 63 <=? z) && (z <? 2 ^ 63))%Z.

(** An integer beyond 64 bits cannot be bound: [OverflowError]. *)
Definition bind_int (v : option Z) : result (option Z) :=
  match v with
  | Some z => if fits_int64 z then Ok (Some z) else Raise OverflowError
  | None => Ok None
  end.

(** The parameters bound by the first statement. *)
Definition listing_params (listing : Listing) : listing_row :=
  {| l_listing_id := listing_id listing;
     l_title := title listing;
     l_neighborhood := neighborhood listing;
     l_street := street listing;
     l_city := city listing;
     l_state := state listing;
     l_area_m2 := area_m2 listing;
     l_bedrooms := bedrooms listing;
     l_bathrooms := bathrooms listing;
     l_parking_spaces := parking_spaces listing;
     l_furnished := int_of_bool (furnished listing);
     l_url := url listing;
     l_first_seen := captured_at listing;
     l_last_seen := captured_at listing |}.

(** ON CONFLICT(listing_id) *)
Definition listing_conflict (old new : listing_row) : bool :=
  bool_decide (l_listing_id old = l_listing_id new).

(** DO UPDATE SET of the first statement: every column but [listing_id] and
    [first_seen] is taken from the new row. *)
Definition listing_update (old new : listing_row) : listing_row :=
  {| l_listing_id := l_listing_id old;
     l_title := l_title new;
     l_neighborhood := l_neighborhood new;
     l_street := l_street new;
     l_city := l_city new;
     l_state := l_state new;
     l_area_m2 := l_area_m2 new;
     l_bedrooms := l_bedrooms new;
     l_bathrooms := l_bathrooms new;
     l_parking_spaces := l_parking_spaces new;
     l_furnished := l_furnished new;
     l_url := l_url new;
     l_first_seen := l_first_seen old;
     l_last_seen := l_last_seen new |}.

(** The parameters bound by the second statement. *)
Definition price_params (listing : Listing) : price_row :=
  {| ph_listing_id := listing_id listing;
     ph_captured_at := captured_at listing;
     ph_rent_price := rent_price listing;
     ph_price_per_m2 := price_per_m2 listing;
     ph_condo_fee := condo_fee listing;
     ph_furnished := int_of_bool (furnished listing) |}.

(** ON CONFLICT(listing_id, captured_at) *)
Definition price_conflict (old new : price_row) : bool :=
  bool_decide (ph_key old = ph_key new).

(** DO UPDATE SET of the second statement. *)
Definition price_update (old new : price_row) : price_row :=
  {| ph_listing_id := ph_listing_id old;
     ph_captured_at := ph_captured_at old;
     ph_rent_price := ph_rent_price new;
     ph_price_per_m2 := ph_price_per_m2 new;
     ph_condo_fee := ph_condo_fee new;
     ph_furnished := ph_furnished new |}.

(** The row that the first statement writes, once its parameters are
    bound. *)
Definition bind_listing (p : listing_row) : result listing_row :=
  try! bedrooms := bind_int (l_bedrooms p) in
  try! bathrooms := bind_int (l_bathrooms p) in
  try! parking_spaces := bind_int (l_parking_spaces p) in
  Ok {| l_listing_id := l_listing_id p;
        l_title := l_title p;
        l_neighborhood := l_neighborhood p;
        l_street := l_street p;
        l_city := l_city p;
        l_state := l_state p;
        l_area_m2 := bind_real (l_area_m2 p);
        l_bedrooms := bedrooms;
        l_bathrooms := bathrooms;
        l_parking_spaces := parking_spaces;
        l_furnished := l_furnished p;
        l_url := l_url p;
        l_first_seen := l_first_seen p;
        l_last_seen := l_last_seen p |}.

(** The row that the second statement writes. *)
Definition bind_price (p : price_row) : price_row :=
  {| ph_listing_id := ph_listing_id p;
     ph_captured_at := ph_captured_at p;
     ph_rent_price := bind_real (ph_rent_price p);
     ph_price_per_m2 := bind_real (ph_price_per_m2 p);
     ph_condo_fee := bind_real (ph_condo_fee p);
     ph_furnished := ph_furnished p |}.

(** [cursor.execute] of the first statement, on the tables the cursor
    sees: when a parameter cannot be bound the statement is not run. *)
Definition insert_listing (params : listing_row) (db : database) : result database :=
  try! row := bind_listing params in
  Ok {| listings := upsert listing_conflict listing_update row (listings db);
        price_history := price_history db |}.

(** [cursor.execute] of the second statement. *)
Definition insert_price (params : price_row) (db : database) : result database :=
  Ok {| listings := listings db;
        price_history := upsert price_conflict price_update (bind_price params)
                           (price_history db) |}.

(** ** Connections and transactions

    [stored] is what the file holds; [seen] is what the connection's cursors
    read and write, the pending changes included. *)
Record connection : Type := mkConnection {
  stored : database;
  seen : database
}.

(** [_connect] *)
Definition _connect (file : database) : connection :=
  {| stored := file; seen := file |}.

(** [conn.commit()] *)
Definition commit (conn : connection) : connection :=
  {| stored := seen conn; seen := seen conn |}.

(** [conn.rollback()] *)
Definition rollback (conn : connection) : connection :=
  {| stored := stored conn; seen := stored conn |}.

(** [with self._connect() as conn: body]: the connection's context manager
    commits when the body returns and rolls back when it raises. The result
    is paired with the file as the block leaves it. *)
Definition with_connection {A : Type} (file : database)
    (body : connection -> result A * connection) : result A * database :=
  match body (_connect file) with
  | (Ok a, conn) => (Ok a, stored (commit conn))
  | (Raise e, conn) => (Raise e, stored (rollback conn))
  end.

Definition _persist_listing_with_cursor (conn : connection) (listing : Listing)
    : result unit * connection :=
  match insert_listing (listing_params listing) (seen conn) with
  | Raise e => (Raise e, conn)
  | Ok db1 =>
      match insert_price (price_params listing) db1 with
      | Raise e => (Raise e, {| stored := stored conn; seen := db1 |})
      | Ok db2 => (Ok tt, {| stored := stored conn; seen := db2 |})
      end
  end.

Definition persist_listing (file : database) (listing : Listing)
    : result unit * database :=
  with_connection file (fun conn =>
    match _persist_listing_with_cursor conn listing with
    | (Ok _, conn) => (Ok tt, commit conn)
    | (Raise e, conn) => (Raise e, conn)
    end).

(** An [Iterable[Listing]] as [persist_many] consumes it: it yields a
    listing, is exhausted, or raises. *)
Inductive iterable : Type :=
| Stop
| Yield (listing : Listing) (rest : iterable)
| Throw (e : exc).

Fixpoint iter_of_list (ls : list Listing) : iterable :=
  match ls with
  | [] => Stop
  | l :: r => Yield l (iter_of_list r)
  end.

(** What a finished generator of the scraper is to its consumer. *)
Definition iter_of_walked (r : walked) : iterable :=
  match stop r with
  | Raised e => fold_right Yield (Throw e) (emitted r)
  | _ => iter_of_list (emitted r)
  end.

(** The [for listing in listings] loop of [persist_many]. *)
Fixpoint persist_loop (listings : iterable) (count : Z) (conn : connection)
    : result Z * connection :=
  match listings with
  | Stop => (Ok count, conn)
  | Throw e => (Raise e, conn)
  | Yield listing rest =>
      match _persist_listing_with_cursor conn listing with
      | (Ok _, conn) => persist_loop rest (count + 1)%Z conn
      | (Raise e, conn) => (Raise e, conn)
      end
  end.

Definition persist_many (file : database) (listings : iterable)
    : result Z * database :=
  with_connection file (fun conn =>
    match persist_loop listings 0%Z conn with
    | (Ok count, conn) => (Ok count, commit conn)
    | (Raise e, conn) => (Raise e, conn)
    end).

(** ** [get_neighborhood_daily_average] *)

(** A row of the result. *)
Record daily_row : Type := mkDailyRow {
  captured_date : date;
  avg_rent_price : option float;
  avg_price_per_m2 : option float;
  listings_count : Z
}.

(** The order of the "YYYY-MM-DD" texts. *)
Definition date_ltb (a b : date) : bool :=
  ((d_year a <? d_year b)
   || ((d_year a =? d_year b)
       && ((d_month a <? d_month b)
           || ((d_month a =? d_month b) && (d_day a <? d_day b)))))%Z%bool.

(** The non-NULL values of a column. *)
Definition non_null {A : Type} (column : list (option A)) : list A :=
  omap id column.

Definition float_sum (xs : list float) : float :=
  fold_left PrimFloat.add xs 0%float.

(** The quotient of the sum by the number of values, as SQLite 3.40
    computes it (the values are added one by one to a double that starts at
    zero); NULL for no value, and NULL when the quotient is a NaN, as for
    both infinities among the values. *)
Definition mean (xs : list float) : option float :=
  match xs with
  | [] => None
  | _ =>
      let q := PrimFloat.div (float_sum xs)
                 (SF2Prim (binary_normalize prec emax (Z.of_nat (length xs)) 0 false)) in
      if PrimFloat.is_nan q then None else Some q
  end.

(** SQL's AVG: NULLs are skipped; NULL when nothing is left. *)
Definition sql_avg (column : list (option float)) : option float :=
  mean (non_null column).

(** FROM price_history AS ph JOIN listings AS l ON l.listing_id = ph.listing_id *)
Definition join_listings (db : database) : list (price_row * listing_row) :=
  flat_map
    (fun ph =>
       map (fun l => (ph, l))
         (List.filter (fun l => bool_decide (l_listing_id l = ph_listing_id ph))
            (listings db)))
    (price_history db).

(** WHERE l.neighborhood = ? [AND ph.furnished = ?] *)
Definition where_clause (neighborhood : string) (furnished : option bool)
    (row : price_row * listing_row) : bool :=
  (bool_decide (l_neighborhood (snd row) = neighborhood)
   && match furnished with
      | Some b => bool_decide (ph_furnished (fst row) = if b then 1%Z else 0%Z)
      | None => true
      end)%bool.

(** The distinct dates, ascending. *)
Fixpoint insert_date (d : date) (ds : list date) : list date :=
  match ds with
  | [] => [d]
  | x :: r =>
      if date_ltb d x then d :: x :: r
      else if bool_decide (d = x) then x :: r
      else x :: insert_date d r
  end.

Definition sorted_dates (ds : list date) : list date :=
  fold_right insert_date [] ds.

(** One group of GROUP BY captured_date, aggregated. *)
Definition aggregate (d : date) (group : list price_row) : daily_row :=
  {| captured_date := d;
     avg_rent_price := sql_avg (map ph_rent_price group);
     avg_price_per_m2 := sql_avg (map ph_price_per_m2 group);
     listings_count := Z.of_nat (length group) |}.

Definition get_neighborhood_daily_average (file : database)
    (neighborhood : string) (furnished : option bool) : list daily_row :=
  let selected :=
    map fst (List.filter (where_clause neighborhood furnished) (join_listings file)) in
  map (fun d =>
         aggregate d
           (List.filter (fun ph => bool_decide (date_of (ph_captured_at ph) = d)) selected))
      (sorted_dates (map (fun ph => date_of (ph_captured_at ph)) selected)).

(** ** ORDER BY

    Texts are compared as SQLite's BINARY collation does, code by code, a
    proper prefix first; the isoformat texts of UTC timestamps compare as
    their fields do. The rows are sorted by insertion, rows that compare
    equal keeping their order. *)
Fixpoint lex_ltb (a b : list Z) : bool :=
  match a, b with
  | [], [] => false
  | [], _ :: _ => true
  | _ :: _, [] => false
  | x :: a', y :: b' => ((x <? y)%Z || ((x =? y)%Z && lex_ltb a' b'))%bool
  end.

Definition codes (s : string) : list Z :=
  map (fun c => Z.of_nat (nat_of_ascii c)) (list_ascii_of_string s).

Definition text_ltb (a b : string) : bool := lex_ltb (codes a) (codes b).

Definition datetime_fields (t : datetime) : list Z :=
  [year t; month t; day t; hour t; minute t; second t; microsecond t].

Definition datetime_ltb (a b : datetime) : bool :=
  lex_ltb (datetime_fields a) (datetime_fields b).

Fixpoint insert_by {A : Type} (ltb : A -> A -> bool) (x : A) (rows : list A)
    : list A :=
  match rows with
  | [] => [x]
  | y :: r => if ltb y x then y :: insert_by ltb x r else x :: y :: r
  end.

Definition sort_by {A : Type} (ltb : A -> A -> bool) (rows : list A) : list A :=
  fold_right (insert_by ltb) [] rows.

(** ** [get_listing_history] *)

(** A row of the result. *)
Record history_row : Type := mkHistoryRow {
  h_listing_id : string;
  h_title : string;
  h_neighborhood : string;
  h_street : string;
  h_captured_at : datetime;
  h_rent_price : option float;
  h_price_per_m2 : option float;
  h_condo_fee : option float;
  h_furnished : Z
}.

(** The SELECT list, on one row of the join. *)
Definition history_columns (row : price_row * listing_row) : history_row :=
  {| h_listing_id := l_listing_id (snd row);
     h_title := l_title (snd row);
     h_neighborhood := l_neighborhood (snd row);
     h_street := l_street (snd row);
     h_captured_at := ph_captured_at (fst row);
     h_rent_price := ph_rent_price (fst row);
     h_price_per_m2 := ph_price_per_m2 (fst row);
     h_condo_fee := ph_condo_fee (fst row);
     h_furnished := ph_furnished (fst row) |}.

Definition get_listing_history (file : database) (id : string) : list history_row :=
  sort_by (fun a b => datetime_ltb (h_captured_at a) (h_captured_at b))
    (map history_columns
       (List.filter (fun row => bool_decide (l_listing_id (snd row) = id))
          (join_listings file))).

(** ** [list_listings] *)

(** ORDER BY title *)
Definition by_title (a b : listing_row) : bool :=
  text_ltb (l_title a) (l_title b).

(** ORDER BY neighborhood, title *)
Definition by_neighborhood_title (a b : listing_row) : bool :=
  (text_ltb (l_neighborhood a) (l_neighborhood b)
   || (bool_decide (codes (l_neighborhood a) = codes (l_neighborhood b))
       && text_ltb (l_title a) (l_title b)))%bool.

(** [if neighborhood:] holds for a non-empty text only. *)
Definition list_listings (file : database) (neighborhood : option string)
    : list listing_row :=
  match neighborhood with
  | Some nb =>
      if str_truthy nb then
        sort_by by_title
          (List.filter (fun l => bool_decide (l_neighborhood l = nb)) (listings file))
      else sort_by by_neighborhood_title (listings file)
  | None => sort_by by_neighborhood_title (listings file)
  end.

End Storage.
Import Storage.

(* ===================================================================== *)
(** * realstate/main.py *)
(* ===================================================================== *)

Module Main.

Definition _resolve_neighborhoods (custom : option (list string))
    : list Neighborhood :=
  match custom with
  | Some (n :: r) => map (fun name => mkNeighborhood name name) (n :: r)
  | _ => DEFAULT_NEIGHBORHOODS
  end.


End Main.
Import Main.

(* ===================================================================== *)
(** * Vocabulary of the properties *)
(* ===================================================================== *)

(** ** Worlds and exceptions *)

(** The world after one more reading of the clock. *)
Definition tick (w : World) : World :=
  {| requests := requests w; clock_reads := S (clock_reads w);
     sleeps := sleeps w; kernel_refuses := kernel_refuses w |}.

(** The world once one more URL has been requested. *)
Definition logged (w : World) (u : string) : World :=
  {| requests := requests w ++ [u]; clock_reads := clock_reads w;
     sleeps := sleeps w; kernel_refuses := kernel_refuses w |}.

(** The only exceptions of the numeric coercions: those of [float(int)] and
    [int(float)]. *)
Definition conversion_error (e : exc) : Prop :=
  e = OverflowError \/ e = ValueError.

(** ** Identifiers and prices *)

(** The text of a value that is a string with something left after
    trimming. *)
Definition nonblank_string (v : json) : option string :=
  match v with
  | JStr s => if str_truthy (strip s) then Some (strip s) else None
  | _ => None
  end.

(** The value is a string and is not the empty string. *)
Definition nonempty_string (v : json) : option string :=
  match v with
  | JStr s => if str_truthy s then Some s else None
  | _ => None
  end.

(** The derivation as the specification words it: the quotient when both
    numbers are present and the area is positive, nothing otherwise. *)
Definition price_per_m2_as_stated (l : Listing) : Prop :=
  match area_m2 l, rent_price l with
  | Some a, Some r =>
      if PrimFloat.ltb 0 a then price_per_m2 l = Some (PrimFloat.div r a)
      else price_per_m2 l = None
  | _, _ => price_per_m2 l = None
  end.

(** ** Walks *)

Section WalkVocabulary.

Variable clock : nat -> datetime.

(** The listings the normaliser returns for the records of one page, in
    order and duplicates included, up to the first exception. *)
Fixpoint normalise_each (raws : list dict) (w : World)
    : list Listing * option exc * World :=
  match raws with
  | [] => ([], None, w)
  | raw :: r =>
      match _normalise_listing clock raw w with
      | (Raise e, w') => ([], Some e, w')
      | (Ok None, w') => normalise_each r w'
      | (Ok (Some l), w') =>
          let '(ls, e, w'') := normalise_each r w' in (l :: ls, e, w'')
      end
  end.

(** The normalised records of a whole walk: the loop of [walk] without its
    [seen_ids]. *)
Fixpoint walk_records (fuel : nat) (self : ZapScraper) (nb : Neighborhood)
    (max_pages : option Z) (page : Z) (w : World) : list Listing :=
  match fuel with
  | O => []
  | S fuel' =>
      if over_ceiling max_pages page then []
      else
        match _fetch_page self nb page w with
        | (Raise e, w1) => []
        | (Ok payload, w1) =>
            match _extract_raw_listings payload with
            | Raise e => []
            | Ok [] => []
            | Ok raw_listings =>
                let '(ns, e, w2) := normalise_each raw_listings w1 in
                match e with
                | Some _ => ns
                | None =>
                    if (Z.of_nat (length raw_listings) <? page_size self)%Z then ns
                    else
                      match (if float_truthy (delay self) then sleep (delay self) w2
                             else (Ok tt, w2)) with
                      | (Raise _, _) => ns
                      | (Ok _, w3) =>
                          ns ++ walk_records fuel' self nb max_pages (page + 1) w3
                      end
                end
            end
        end
  end.

(** [stamped lo ls hi]: each listing of [ls] carries a reading of the clock
    of its own, the readings are taken in the order of the list, and all of
    them are among the readings [lo], ..., [hi - 1]. *)
Inductive stamped : nat -> list Listing -> nat -> Prop :=
| stamped_nil (lo hi : nat) : (lo <= hi)%nat -> stamped lo [] hi
| stamped_cons (lo i : nat) (l : Listing) (ls : list Listing) (hi : nat) :
    (lo <= i)%nat -> captured_at l = clock i -> stamped (S i) ls hi ->
    stamped lo (l :: ls) hi.

End WalkVocabulary.

(** The listings whose identifier is neither in [seen] nor carried by an
    earlier listing of the list. *)
Fixpoint first_occurrences (seen : gset string) (ls : list Listing) : list Listing :=
  match ls with
  | [] => []
  | l :: r =>
      if bool_decide (listing_id l ∈ seen) then first_occurrences seen r
      else l :: first_occurrences ({[listing_id l]} ∪ seen) r
  end.

(** The identifiers of a list of listings, as a set. *)
Definition ids_of (ls : list Listing) : gset string :=
  list_to_set (map listing_id ls).

(** ** Keyed tables *)

Section KeyedTable.

Context {R K : Type} `{EqDecision K}.
Variable key : R -> K.

(** ON CONFLICT on the key of the table. *)
Definition key_conflict (old new : R) : bool := bool_decide (key old = key new).

(** The rows carrying the key [k]. *)
Definition with_key (k : K) (rows : list R) : list R :=
  List.filter (fun r => bool_decide (key r = k)) rows.

(** The rows carrying another key than [k]. *)
Definition without_key (k : K) (rows : list R) : list R :=
  List.filter (fun r => negb (bool_decide (key r = k))) rows.

End KeyedTable.

(** ** Persistence and the daily average *)

(** A counter that is given lies within 64 bits. *)
Definition in_64_bits (v : option Z) : bool :=
  match v with
  | Some z => ((-9223372036854775808 <=? z) && (z <=? 9223372036854775807))%Z
  | None => true
  end.

(** The listing can be written: its bedrooms, bathrooms and parking spaces
    lie within 64 bits. *)
Definition storable (l : Listing) : bool :=
  (in_64_bits (bedrooms l) && in_64_bits (bathrooms l)
   && in_64_bits (parking_spaces l))%bool.


(** The rows of a listing as the tables hold them. *)
Definition snapshot_row (l : Listing) : listing_row :=
  {| l_listing_id := listing_id l;
     l_title := title l;
     l_neighborhood := neighborhood l;
     l_street := street l;
     l_city := city l;
     l_state := state l;
     l_area_m2 := bind_real (area_m2 l);
     l_bedrooms := bedrooms l;
     l_bathrooms := bathrooms l;
     l_parking_spaces := parking_spaces l;
     l_furnished := int_of_bool (furnished l);
     l_url := url l;
     l_first_seen := captured_at l;
     l_last_seen := captured_at l |}.

Definition point_row (l : Listing) : price_row := bind_price (price_params l).

(** The tables after the two statements of [_persist_listing_with_cursor]
    have written a listing. *)
Definition persist_rows (l : Listing) (db : database) : database :=
  {| listings := upsert listing_conflict listing_update (snapshot_row l) (listings db);
     price_history := upsert price_conflict price_update (point_row l)
                        (price_history db) |}.


(** What an iterable yields before it stops, and the exception that stops
    it, if any. *)
Fixpoint yielded (it : iterable) : list Listing :=
  match it with
  | Yield l rest => l :: yielded rest
  | _ => []
  end.

Fixpoint raises (it : iterable) : option exc :=
  match it with
  | Yield _ rest => raises rest
  | Stop => None
  | Throw e => Some e
  end.

(** The exception that ends a batch, if any: that of the first listing that
    cannot be written, or that of the iterable when it raises first. *)
Fixpoint batch_error (it : iterable) : option exc :=
  match it with
  | Stop => None
  | Throw e => Some e
  | Yield l rest => if storable l then batch_error rest else Some OverflowError
  end.

(** The listings of a batch that are written before the batch ends. *)
Fixpoint written (it : iterable) : list Listing :=
  match it with
  | Yield l rest => if storable l then l :: written rest else []
  | _ => []
  end.

(** The tables after the listings of [ls] have been written in turn. *)
Definition persist_all (ls : list Listing) (db : database) : database :=
  fold_left (fun d l => persist_rows l d) ls db.

(** The order of the calendar. *)
Definition date_lt (a b : date) : Prop :=
  (d_year a < d_year b
   \/ (d_year a = d_year b
       /\ (d_month a < d_month b
           \/ (d_month a = d_month b /\ d_day a < d_day b))))%Z.





(** The history points the query considers: those whose listing is, as the
    snapshot table has it now, in the neighbourhood, and, under a filter,
    those with that furnished flag. *)
Definition considered (db : database) (nb : string) (flag : option bool)
    (ph : price_row) : bool :=
  (existsb (fun l => bool_decide (l_listing_id l = ph_listing_id ph)
                     && bool_decide (l_neighborhood l = nb))
     (listings db)
   && match flag with
      | Some b => bool_decide (ph_furnished ph = int_of_bool b)
      | None => true
      end)%bool.


(** ** Sample data: the fixtures of the tests *)

(** A JSON integer with 401 digits: [json.loads] returns it as an [int]. *)
Definition huge_int : json := JInt (10 ^ 400).

(** A clock that advances by a microsecond at each reading. *)
Definition sample_clock (n : nat) : datetime :=
  mkDatetime 2024 1 1 12 0 0 (Z.of_nat n).

(** A clock that returns the same instant at every reading. *)
Definition frozen_clock (n : nat) : datetime := mkDatetime 2024 1 1 12 0 0 0.

(** A record whose first identifier key holds blanks only. *)
Definition blank_id_record : dict :=
  [("id", JStr "   "); ("listingId", JStr "abc")].

(** A flat of 80 m2 advertised for a rent of 0. *)
Definition free_flat : dict :=
  [("id", JStr "1"); ("usableAreas", JInt 80);
   ("pricingInfos", JDict [("price", JInt 0)])].

(** A record with a negative area. *)
Definition negative_area_flat : dict :=
  [("id", JStr "2"); ("usableAreas", JStr "-80");
   ("pricingInfos", JDict [("price", JInt 4800)])].

(** The first flat of the test fixture, 4800 for 80 m2, and its listing. *)
Definition fixture_flat : dict :=
  [("id", JStr "12345"); ("usableAreas", JList [JStr "80"]);
   ("pricingInfos", JList [JDict [("businessType", JStr "RENTAL");
                                  ("price", JStr "4800")]]);
   ("address", JDict [("neighborhood", JStr "Pinheiros")]);
   ("amenities", JList [JStr "furnished"])].

Definition fixture_listing : Listing :=
  {| listing_id := "12345"; title := "Apartamento em Pinheiros";
     neighborhood := "Pinheiros"; street := ""; city := ""; state := "";
     area_m2 := Some 80%float; bedrooms := None; bathrooms := None;
     parking_spaces := None; rent_price := Some 4800%float; condo_fee := None;
     price_per_m2 := Some 60%float; furnished := true;
     url := "https://www.zapimoveis.com.br/imovel/12345";
     captured_at := sample_clock 0 |}.

(** The listing of the fixture, captured again at the same instant with
    another rent. *)
Definition fixture_listing_again : Listing :=
  {| listing_id := "12345"; title := "Apartamento em Pinheiros";
     neighborhood := "Pinheiros"; street := ""; city := ""; state := "";
     area_m2 := Some 80%float; bedrooms := None; bathrooms := None;
     parking_spaces := None; rent_price := Some 5200%float; condo_fee := None;
     price_per_m2 := Some 65%float; furnished := true;
     url := "https://www.zapimoveis.com.br/imovel/12345";
     captured_at := sample_clock 0 |}.

(** A transport that serves [fixture_flat] and [free_flat] on its first call
    and an empty page afterwards, and a scraper for one neighbourhood on top
    of it. *)
Definition fixture_page : json :=
  JDict [("listings", JList [JDict fixture_flat; JDict [("listing", JDict free_flat)]])].

Definition fixture_transport (history : list string) (u : string) : response :=
  match history with
  | [] => Body fixture_page
  | _ => Body (JDict [("listings", JList [])])
  end.

Definition fixture_scraper : ZapScraper :=
  init (Some [mkNeighborhood "Pinheiros" "Pinheiros"])
    DEFAULT_PAGE_SIZE DEFAULT_TIMEOUT DEFAULT_DELAY_BETWEEN_REQUESTS fixture_transport.

Definition pinheiros : Neighborhood := mkNeighborhood "Pinheiros" "Pinheiros".

(** A record whose bedrooms do not fit in 64 bits, and one whose price is
    not a number, with their listings. *)
Definition crowded_flat : dict :=
  [("id", JStr "9"); ("bedrooms", JInt (2 ^ 63))].

Definition crowded_listing : Listing :=
  {| listing_id := "9"; title := "Apartamento";
     neighborhood := ""; street := ""; city := ""; state := "";
     area_m2 := None; bedrooms := Some (2 ^ 63)%Z; bathrooms := None;
     parking_spaces := None; rent_price := None; condo_fee := None;
     price_per_m2 := None; furnished := false;
     url := "https://www.zapimoveis.com.br/imovel/9";
     captured_at := sample_clock 0 |}.

Definition unpriced_flat : dict :=
  [("id", JStr "8"); ("pricingInfos", JDict [("price", JStr "nan")])].

Definition unpriced_listing : Listing :=
  {| listing_id := "8"; title := "Apartamento";
     neighborhood := ""; street := ""; city := ""; state := "";
     area_m2 := None; bedrooms := None; bathrooms := None;
     parking_spaces := None; rent_price := Some nan; condo_fee := None;
     price_per_m2 := None; furnished := false;
     url := "https://www.zapimoveis.com.br/imovel/8";
     captured_at := sample_clock 0 |}.

(** Listing "ABC123" of the test, captured at [t] with the given prices. *)
Definition make_listing (id : string) (t : datetime) (rent ppm : option float)
    : Listing :=
  {| listing_id := id; title := "Apartamento de teste";
     neighborhood := "Pinheiros"; street := "Rua Teste";
     city := "Sao Paulo"; state := "SP";
     area_m2 := Some 80%float; bedrooms := Some 2%Z; bathrooms := Some 2%Z;
     parking_spaces := Some 1%Z; rent_price := rent;
     condo_fee := Some 500%float; price_per_m2 := ppm; furnished := true;
     url := "https://www.zapimoveis.com.br/imovel/" ++ id;
     captured_at := t |}.

Definition first_capture : datetime := mkDatetime 2024 1 1 12 0 0 0.

Definition second_capture : datetime := mkDatetime 2024 1 2 12 0 0 0.

(** "ABC123" on two days, and on the second day a listing without price
    per m2. *)
Definition test_database : database :=
  persist_all
    [ make_listing "ABC123" first_capture (Some 5000%float) (Some 62.5%float);
      make_listing "ABC123" second_capture (Some 5200%float) (Some 65%float);
      make_listing "XYZ789" second_capture (Some 3000%float) None ]
    _ensure_schema.

(** ** Further vocabulary: payloads, traces, orders *)

(** The value is a dict. *)
Definition is_dict (v : json) : bool :=
  match v with
  | JDict _ => true
  | _ => false
  end.

(** A text that does not start with a blank. *)
Definition head_not_blank (s : string) : Prop :=
  match s with
  | String c _ => isspace c = false
  | EmptyString => True
  end.

(** The candidate keys of [_extract_url]. *)
Definition url_keys : list string := ["url"; "link"; "detailUrl"].

(** The pages [p], [p + 1], ..., [p + k - 1]. *)
Definition pages_from (p : Z) (k : nat) : list Z :=
  map (fun i => (p + Z.of_nat i)%Z) (seq 0 k).

(** Rows in ascending order for [ltb]: no row is below an earlier one. *)
Definition ascending {A : Type} (ltb : A -> A -> bool) (rows : list A) : Prop :=
  StronglySorted (fun a b => ltb b a = false) rows.

(** Every snapshot row was first and last seen at captures that the history
    table holds for its listing. *)
Definition seen_times_recorded (db : database) : Prop :=
  forall row, In row (listings db) ->
    In (l_listing_id row, l_first_seen row) (map ph_key (price_history db))
    /\ In (l_listing_id row, l_last_seen row) (map ph_key (price_history db)).

(** The sum of the [listings] column of a daily report. *)
Definition total_listings (rows : list daily_row) : Z :=
  fold_right Z.add 0%Z (map listings_count rows).

(** A transport that always serves a full page of one record. *)
Definition endless_transport (history : list string) (u : string) : response :=
  Body (JDict [("listings", JList [JDict fixture_flat])]).

(** A record with no bedroom of its own and three rooms, and its listing. *)
Definition studio_flat : dict :=
  [("id", JStr "7"); ("bedrooms", JInt 0); ("rooms", JInt 3)].

Definition studio_listing : Listing :=
  {| listing_id := "7"; title := "Apartamento";
     neighborhood := ""; street := ""; city := ""; state := "";
     area_m2 := None; bedrooms := Some 3%Z; bathrooms := None;
     parking_spaces := None; rent_price := None; condo_fee := None;
     price_per_m2 := None; furnished := false;
     url := "https://www.zapimoveis.com.br/imovel/7";
     captured_at := sample_clock 0 |}.

(** The scraper that [single_run] builds. *)
Definition run_scraper (network : list string -> string -> response)
    (neighborhoods : list Neighborhood) (delay : float) : ZapScraper :=
  init (Some neighborhoods) DEFAULT_PAGE_SIZE DEFAULT_TIMEOUT delay network.


(* ===================================================================== *)
(** * Properties of the normaliser *)
(* ===================================================================== *)

Section Normaliser.

Variable clock : nat -> datetime.

(** The guarded division never reaches its [except] branch, and never
    raises. *)
Lemma compute_price_per_m2_value (area rent : option float) :
  compute_price_per_m2 area rent =
  Ok (match area, rent with
      | Some a, Some r =>
          if (float_truthy a && float_truthy r)%bool
          then Some (PrimFloat.div r a) else None
      | _, _ => None
      end).
Proof.
  destruct area as [a|], rent as [r|]; simpl; try reflexivity.
  destruct (float_truthy a) eqn:Ha; simpl; [|reflexivity].
  destruct (float_truthy r); simpl; [|reflexivity].
  unfold truediv. unfold float_truthy in Ha.
  destruct (PrimFloat.eqb a 0); [discriminate | reflexivity].
Qed.

(** What a successful normalisation says about the listing it returns. *)
Lemma normalise_listing_some (raw : dict) (w w' : World) (l : Listing) :
  _normalise_listing clock raw w = (Ok (Some l), w') ->
  _get_listing_id raw = Some (listing_id l)
  /\ compute_price_per_m2 (area_m2 l) (rent_price l) = Ok (price_per_m2 l)
  /\ captured_at l = clock (clock_reads w)
  /\ w' = tick w.
Proof.
  unfold _normalise_listing.
  destruct (_get_listing_id raw) as [i|]; [|unfold ret; intros [=]].
  unfold bind, lift, ret, now.
  repeat match goal with
         | |- context [match ?r with Ok _ => _ | Raise _ => _ end] =>
             destruct r eqn:?; [|intros [=]]
         end.
  intros [= <- <-]. simpl. auto.
Qed.

(** A record without identifier is dropped: no error, no effect. *)
Lemma normalise_listing_no_id (raw : dict) (w : World) :
  _get_listing_id raw = None ->
  _normalise_listing clock raw w = (Ok None, w).
Proof. unfold _normalise_listing. intros ->. reflexivity. Qed.

(** The normaliser returns a listing only for a record with an identifier. *)
Lemma normalise_listing_none (raw : dict) (w w' : World) :
  _normalise_listing clock raw w = (Ok None, w') ->
  _get_listing_id raw = None /\ w' = w.
Proof.
  unfold _normalise_listing.
  destruct (_get_listing_id raw) as [i|]; [|unfold ret; intros [= <-]; auto].
  unfold bind, lift, ret, now.
  repeat match goal with
         | |- context [match ?r with Ok _ => _ | Raise _ => _ end] =>
             destruct r; [|intros [=]]
         end.
  intros [=].
Qed.

(** When the normaliser raises, the clock was not read. *)
Lemma normalise_listing_raise (raw : dict) (w w' : World) (e : exc) :
  _normalise_listing clock raw w = (Raise e, w') -> w' = w.
Proof.
  unfold _normalise_listing.
  destruct (_get_listing_id raw) as [i|]; [|unfold ret; intros [=]].
  unfold bind, lift, ret, now.
  repeat match goal with
         | |- context [match ?r with Ok _ => _ | Raise _ => _ end] =>
             destruct r; [|intros [= _ <-]; reflexivity]
         end.
  intros [=].
Qed.

End Normaliser.

(** ** Which exceptions the field extractors raise *)

Lemma float_of_int_raise (z : Z) (e : exc) :
  float_of_int z = Raise e -> e = OverflowError.
Proof.
  unfold float_of_int.
  destruct (binary_normalize prec emax z 0 false); intros [=]; auto.
Qed.

Lemma int_of_float_raise (x : float) (e : exc) :
  int_of_float x = Raise e -> conversion_error e.
Proof.
  unfold int_of_float, conversion_error.
  destruct (Prim2SF x); intros [=]; auto.
Qed.

Lemma get_float_raise (v : json) (e : exc) :
  _get_float v = Raise e -> conversion_error e.
Proof.
  unfold conversion_error.
  destruct v as [|b|z|x|s|l|d]; simpl; try (intros [=]; fail).
  - destruct (float_of_int (if b then 1 else 0)%Z) eqn:E; simpl; intros [=].
    subst. left. eapply float_of_int_raise, E.
  - destruct (float_of_int z) eqn:E; simpl; intros [=].
    subst. left. eapply float_of_int_raise, E.
Qed.

Lemma first_number_raise (l : list json) (e : exc) :
  first_number l = Raise e -> conversion_error e.
Proof.
  induction l as [|v l IH]; simpl; [intros [=]|].
  destruct (_get_float v) as [[x|]|e'] eqn:E; simpl; auto.
  - intros [=].
  - intros [= <-]. eapply get_float_raise, E.
Qed.

Lemma get_first_number_raise (v : json) (e : exc) :
  _get_first_number v = Raise e -> conversion_error e.
Proof.
  destruct v as [|b|z|x|s|l|d];
    try (apply get_float_raise).
  destruct l as [|v l]; [apply get_float_raise|].
  unfold _get_first_number.
  destruct (first_number (v :: l)) as [[x|]|e'] eqn:E; simpl.
  - intros [=].
  - intros [=].
  - intros [= <-]. eapply first_number_raise, E.
Qed.

Lemma get_int_raise (v : json) (e : exc) :
  _get_int v = Raise e -> conversion_error e.
Proof.
  destruct v as [|b|z|x|s|l|d]; simpl; try (intros [=]; fail).
  destruct (int_of_float x) eqn:E; simpl; intros [=].
  subst. eapply int_of_float_raise, E.
Qed.

Lemma int_or_raise (a : option Z) (v : json) (e : exc) :
  int_or a (_get_int v) = Raise e -> conversion_error e.
Proof.
  destruct a as [z|]; simpl; [destruct (z =? 0)%Z|];
    try apply get_int_raise; intros [=].
Qed.

Lemma first_price_raise (info : dict) (keys : list string) (e : exc) :
  first_price info keys = Raise e -> conversion_error e.
Proof.
  induction keys as [|k keys IH]; simpl; [intros [=]|].
  destruct (_get_float (get info k)) as [[x|]|e'] eqn:E; simpl; auto.
  - intros [=].
  - intros [= <-]. eapply get_float_raise, E.
Qed.

(** Whatever the normaliser raises comes from a numeric coercion. *)
Lemma normalise_listing_raises_conversion (clock : nat -> datetime)
    (raw : dict) (w w' : World) (e : exc) :
  _normalise_listing clock raw w = (Raise e, w') -> conversion_error e.
Proof.
  unfold _normalise_listing.
  destruct (_get_listing_id raw) as [i|]; [|unfold ret; intros [=]].
  unfold bind, lift, ret, now.
  repeat match goal with
         | |- context [match ?r with Ok _ => _ | Raise _ => _ end] =>
             destruct r eqn:?; [|intros [= <- _]]
         end;
    try (intros [=]; fail);
    try (eapply get_first_number_raise; eassumption);
    try (eapply get_int_raise; eassumption);
    try (eapply int_or_raise; eassumption);
    try (eapply first_price_raise; eassumption);
    try (eapply get_float_raise; eassumption).
  match goal with
  | H : compute_price_per_m2 _ _ = Raise _ |- _ =>
      rewrite compute_price_per_m2_value in H; discriminate H
  end.
Qed.

(* ===================================================================== *)
(** * The float coercion [_get_float] *)
(* ===================================================================== *)

(** Apart from integers too large for a double, [_get_float] returns: the
    number for a number, the parsed text for a string without its "." and
    ",", and [None] for anything else. *)
Lemma get_float_returns (v : json) :
  (forall z, v = JInt z -> float_of_int z <> Raise OverflowError) ->
  exists o, _get_float v = Ok o
    /\ match v with
       | JNull | JList _ | JDict _ => o = None
       | JFloat x => o = Some x
       | JStr s => o = float_of_str (remove_char "," (remove_char "." s))
       | JInt z => float_of_int z = Ok (default nan o) /\ o <> None
       | JBool b => o = Some (if b then 1%float else 0%float)
       end.
Proof.
  intros Hz. destruct v as [|b|z|x|s|l|d]; simpl; eauto.
  - destruct b; eexists; split; reflexivity.
  - specialize (Hz z eq_refl).
    destruct (float_of_int z) as [x|e] eqn:E.
    + exists (Some x). simpl. repeat split; congruence.
    + apply float_of_int_raise in E as ->. contradiction.
Qed.

(** C8 (the code departs from the claim): [_get_float] is not total. On the
    integer [10 ** 400] the call [float(value)] of the numeric branch raises
    [OverflowError], which nothing catches. *)
Theorem get_float_huge_int_raises :
  _get_float huge_int = Raise OverflowError.
Proof. vm_compute. reflexivity. Qed.

(** The exception leaves the normaliser too. *)
Lemma normalise_listing_huge_area (clock : nat -> datetime) (w : World) :
  fst (_normalise_listing clock [("id", JStr "1"); ("usableAreas", huge_int)] w)
  = Raise OverflowError.
Proof. vm_compute. reflexivity. Qed.

(* ===================================================================== *)
(** * Identity resolution *)
(* ===================================================================== *)

Lemma first_id_none (raw : dict) (keys : list string) :
  (forall key, In key keys -> nonblank_string (get raw key) = None) ->
  first_id raw keys = None.
Proof.
  induction keys as [|k keys IH]; simpl; intros H; [reflexivity|].
  pose proof (H k (or_introl eq_refl)) as Hk. unfold nonblank_string in Hk.
  destruct (get raw k) as [| | | |s| |]; auto.
  destruct (str_truthy (strip s)); [discriminate|auto].
Qed.

Lemma first_id_split (raw : dict) (pre post : list string) (key s : string) :
  (forall k, In k pre -> nonblank_string (get raw k) = None) ->
  nonblank_string (get raw key) = Some s ->
  first_id raw (pre ++ key :: post) = Some s.
Proof.
  induction pre as [|k pre IH]; simpl; intros Hpre Hkey.
  - unfold nonblank_string in Hkey.
    destruct (get raw key) as [| | | |v| |]; try discriminate.
    destruct (str_truthy (strip v)); [assumption|discriminate].
  - pose proof (Hpre k (or_introl eq_refl)) as Hk. unfold nonblank_string in Hk.
    destruct (get raw k) as [| | | |v| |]; auto.
    destruct (str_truthy (strip v)); [discriminate|auto].
Qed.

(** C5 as stated fails: "id" holds a non-empty string, yet the identifier of
    the listing is not its trimmed value, it is taken from "listingId". *)
Lemma blank_identifier_is_skipped :
  nonempty_string (get blank_id_record "id") = Some "   "
  /\ exists l w,
       _normalise_listing sample_clock blank_id_record initial_world = (Ok (Some l), w)
       /\ listing_id l = "abc"
       /\ listing_id l <> strip "   ".
Proof.
  split; [reflexivity|].
  eexists _, _. split; [vm_compute; reflexivity|]. split; [reflexivity|].
  vm_compute. discriminate.
Qed.

(** C5 (amended): a record none of whose identifier keys holds a string that
    is non-empty once trimmed is dropped, without error and without effect;
    otherwise the identifier of the listing returned is the trimmed value of
    the first key, in priority order, holding such a string. *)
Theorem identity_resolution (clock : nat -> datetime) (raw : dict) (w : World) :
  ((forall key, In key id_keys -> nonblank_string (get raw key) = None) ->
   _normalise_listing clock raw w = (Ok None, w))
  /\ (forall pre key post s,
        id_keys = pre ++ key :: post ->
        (forall k, In k pre -> nonblank_string (get raw k) = None) ->
        nonblank_string (get raw key) = Some s ->
        _get_listing_id raw = Some s
        /\ forall l w',
             _normalise_listing clock raw w = (Ok (Some l), w') ->
             listing_id l = s).
Proof.
  split.
  - intros H. apply normalise_listing_no_id. apply first_id_none, H.
  - intros pre key post s Hkeys Hpre Hkey.
    assert (Hid : _get_listing_id raw = Some s).
    { unfold _get_listing_id. rewrite Hkeys. apply first_id_split; assumption. }
    split; [exact Hid|].
    intros l w' Hn. apply normalise_listing_some in Hn as (Hl & _).
    congruence.
Qed.

(** The amended property at two records: one with blank identifiers only,
    and [blank_id_record]. *)
Lemma identity_resolution_witness :
  _normalise_listing sample_clock [("id", JStr " "); ("detailId", JInt 7)] initial_world
  = (Ok None, initial_world)
  /\ _get_listing_id blank_id_record = Some "abc".
Proof.
  split.
  - apply (proj1 (identity_resolution sample_clock
                    [("id", JStr " "); ("detailId", JInt 7)] initial_world)).
    intros key [<-|[<-|[<-|[]]]]; reflexivity.
  - apply (proj2 (identity_resolution sample_clock blank_id_record initial_world)
             ["id"] "listingId" ["detailId"] "abc").
    + reflexivity.
    + intros k [<-|[]]. reflexivity.
    + reflexivity.
Defined.

(* ===================================================================== *)
(** * The derived price per square metre *)
(* ===================================================================== *)

(** C4 as stated fails: with a rent of 0 and an area of 80, both present and
    the area positive, the listing has no [price_per_m2]. *)
Lemma free_flat_has_no_price_per_m2 :
  exists l w,
    _normalise_listing sample_clock free_flat initial_world = (Ok (Some l), w)
    /\ area_m2 l = Some 80%float
    /\ rent_price l = Some 0%float
    /\ price_per_m2 l = None
    /\ ~ price_per_m2_as_stated l.
Proof.
  eexists _, _. split; [vm_compute; reflexivity|].
  repeat split; try reflexivity.
  vm_compute. discriminate.
Qed.

(** A negative area is divided by as well. *)
Lemma negative_area_has_price_per_m2 :
  exists l w,
    _normalise_listing sample_clock negative_area_flat initial_world = (Ok (Some l), w)
    /\ area_m2 l = Some (-80)%float
    /\ price_per_m2 l = Some (-60)%float.
Proof.
  eexists _, _. split; [vm_compute; reflexivity|].
  split; reflexivity.
Qed.

(** C4 (amended): the normaliser never raises a division by zero, and in
    every listing it returns [price_per_m2] is [rent_price / area_m2] when
    both are present and both are different from zero, and absent otherwise
    (an area of 0 and a rent of 0 included). *)
Theorem price_per_m2_derivation (clock : nat -> datetime) (raw : dict) (w : World) :
  fst (_normalise_listing clock raw w) <> Raise ZeroDivisionError
  /\ forall l w',
       _normalise_listing clock raw w = (Ok (Some l), w') ->
       price_per_m2 l =
       match area_m2 l, rent_price l with
       | Some a, Some r =>
           if (negb (PrimFloat.eqb a 0) && negb (PrimFloat.eqb r 0))%bool
           then Some (PrimFloat.div r a) else None
       | _, _ => None
       end.
Proof.
  split.
  - destruct (_normalise_listing clock raw w) as [[o|e] w'] eqn:E; simpl.
    + discriminate.
    + apply normalise_listing_raises_conversion in E as [-> | ->]; discriminate.
  - intros l w' Hn. apply normalise_listing_some in Hn as (_ & Hp & _).
    rewrite compute_price_per_m2_value in Hp. injection Hp as <-.
    reflexivity.
Qed.

Lemma fixture_flat_normalised :
  _normalise_listing sample_clock fixture_flat initial_world
  = (Ok (Some fixture_listing), tick initial_world).
Proof. vm_compute. reflexivity. Qed.

(** The amended property at the fixture's first flat. *)
Lemma price_per_m2_derivation_witness :
  price_per_m2 fixture_listing = Some (PrimFloat.div 4800 80).
Proof.
  exact (proj2 (price_per_m2_derivation sample_clock fixture_flat initial_world)
           fixture_listing (tick initial_world) fixture_flat_normalised).
Defined.

(* ===================================================================== *)
(** * Pagination *)
(* ===================================================================== *)

Section Walker.

Variable clock : nat -> datetime.

(** The normaliser leaves the request log and the pauses alone, and only
    ever advances the clock. *)
Lemma normalise_listing_world (raw : dict) (w w' : World) (r : result (option Listing)) :
  _normalise_listing clock raw w = (r, w') ->
  requests w' = requests w /\ sleeps w' = sleeps w
  /\ (clock_reads w <= clock_reads w')%nat.
Proof.
  intros H. destruct r as [[l|]|e].
  - apply normalise_listing_some in H as (_ & _ & _ & ->). simpl. auto.
  - apply normalise_listing_none in H as (_ & ->). auto.
  - apply normalise_listing_raise in H as ->. auto.
Qed.

Lemma for_raw_listings_world (raws : list dict) (seen_ids : gset string) (w : World) :
  forall ls res w',
    for_raw_listings clock raws seen_ids w = (ls, res, w') ->
    requests w' = requests w /\ sleeps w' = sleeps w.
Proof.
  revert seen_ids w.
  induction raws as [|raw raws IH]; simpl; intros seen_ids w ls res w' H.
  - injection H as <- <- <-. auto.
  - destruct (_normalise_listing clock raw w) as [[[l|]|e] w1] eqn:E;
      apply normalise_listing_world in E as (Hr & Hs & _).
    + destruct (bool_decide (listing_id l ∈ seen_ids)).
      * apply IH in H as (-> & ->). auto.
      * destruct (for_raw_listings clock raws ({[listing_id l]} ∪ seen_ids) w1)
          as [[ls1 res1] w2] eqn:E2.
        injection H as <- <- <-. apply IH in E2 as (-> & ->). auto.
    + apply IH in H as (-> & ->). auto.
    + injection H as <- <- <-. auto.
Qed.


(** What a page request does to the world: nothing when the URL cannot be
    built, one more request otherwise. *)
Lemma fetch_page_world (self : ZapScraper) (nb : Neighborhood) (page : Z)
    (w w' : World) (r : result json) :
  _fetch_page self nb page w = (r, w') ->
  (w' = w /\ (exists e, r = Raise e) /\ (exists e, _build_url self nb page = Raise e))
  \/ (exists u, _build_url self nb page = Ok u /\ w' = logged w u).
Proof.
  unfold _fetch_page. destruct (_build_url self nb page) as [u|e].
  - intros H. right. exists u. split; [reflexivity|].
    destruct (transport self (requests w) u); injection H as _ <-; reflexivity.
  - intros [= <- <-]. left. eauto.
Qed.

(** What a pause does to the world: one more pause, or nothing when it is
    refused. *)
Lemma sleep_world (d : float) (w w' : World) (r : result unit) :
  sleep d w = (r, w') ->
  requests w' = requests w /\ clock_reads w' = clock_reads w
  /\ match r with
     | Ok _ => sleeps w' = sleeps w ++ [d]
     | Raise _ => w' = w
     end.
Proof.
  unfold sleep. destruct (sleep_refusal d); [intros [= <- <-]; auto|].
  destruct (kernel_refuses w (sleeps w) d); intros [= <- <-]; auto.
Qed.


(** ** Deduplication *)

Lemma ids_of_cons (l : Listing) (ls : list Listing) :
  ids_of (l :: ls) = {[listing_id l]} ∪ ids_of ls.
Proof. reflexivity. Qed.

Lemma ids_of_app (a b : list Listing) : ids_of (a ++ b) = ids_of a ∪ ids_of b.
Proof.
  unfold ids_of. rewrite map_app. apply leibniz_equiv. apply list_to_set_app.
Qed.

Lemma for_raw_listings_spec (raws : list dict) (seen_ids : gset string) (w : World) :
  for_raw_listings clock raws seen_ids w =
  let '(ns, e, w') := normalise_each clock raws w in
  (first_occurrences seen_ids ns,
   match e with
   | None => Ok (ids_of ns ∪ seen_ids)
   | Some e => Raise e
   end,
   w').
Proof.
  revert seen_ids w. induction raws as [|raw raws IH]; intros seen_ids w; simpl.
  - do 2 f_equal. unfold ids_of. simpl. f_equal. set_solver.
  - destruct (_normalise_listing clock raw w) as [[[l|]|e] w1]; auto.
    destruct (normalise_each clock raws w1) as [[ns e] w2] eqn:E. simpl.
    destruct (bool_decide (listing_id l ∈ seen_ids)) eqn:B.
    + rewrite IH, E. do 2 f_equal. destruct e; [reflexivity|].
      f_equal. apply bool_decide_eq_true in B. rewrite ids_of_cons. set_solver.
    + rewrite IH, E. do 2 f_equal. destruct e; [reflexivity|].
      f_equal. rewrite ids_of_cons. set_solver.
Qed.

Lemma first_occurrences_app (seen : gset string) (a b : list Listing) :
  first_occurrences seen (a ++ b)
  = first_occurrences seen a ++ first_occurrences (ids_of a ∪ seen) b.
Proof.
  revert seen. induction a as [|l a IH]; intros seen; simpl.
  - f_equal. unfold ids_of. simpl. set_solver.
  - destruct (bool_decide (listing_id l ∈ seen)) eqn:B.
    + rewrite IH. do 2 f_equal. apply bool_decide_eq_true in B.
      rewrite ids_of_cons. set_solver.
    + simpl. rewrite IH. do 3 f_equal. rewrite ids_of_cons. set_solver.
Qed.

(** What a walk yields: the first occurrences among its normalised records. *)
Lemma walk_emitted (fuel : nat) (self : ZapScraper) (nb : Neighborhood)
    (max_pages : option Z) :
  forall page seen_ids w,
    emitted (walk clock fuel self nb max_pages page seen_ids w)
    = first_occurrences seen_ids (walk_records clock fuel self nb max_pages page w).
Proof.
  induction fuel as [|fuel IH]; intros page seen_ids w; simpl; [reflexivity|].
  destruct (over_ceiling max_pages page); [reflexivity|].
  destruct (_fetch_page self nb page w) as [[payload|e] w1]; [|reflexivity].
  destruct (_extract_raw_listings payload) as [[|raw raws]|e]; try reflexivity.
  rewrite for_raw_listings_spec.
  destruct (normalise_each clock (raw :: raws) w1) as [[ns e] w2].
  destruct e as [e|]; [reflexivity|].
  destruct (Z.of_nat (length (raw :: raws)) <? page_size self)%Z; [reflexivity|].
  destruct (if float_truthy (delay self) then sleep (delay self) w2
            else (Ok tt, w2)) as [[[]|e] w3]; [|reflexivity].
  simpl. rewrite IH, first_occurrences_app. reflexivity.
Qed.

Lemma first_occurrences_fresh (seen : gset string) (ls : list Listing) :
  forall l, In l (first_occurrences seen ls) -> listing_id l ∉ seen.
Proof.
  revert seen. induction ls as [|n ls IH]; intros seen l; simpl; [tauto|].
  destruct (bool_decide (listing_id n ∈ seen)) eqn:B.
  - apply IH.
  - apply bool_decide_eq_false in B. intros [<-|H]; [exact B|].
    apply IH in H. set_solver.
Qed.

Lemma first_occurrences_NoDup (seen : gset string) (ls : list Listing) :
  NoDup (map listing_id (first_occurrences seen ls)).
Proof.
  revert seen. induction ls as [|n ls IH]; intros seen; simpl; [constructor|].
  destruct (bool_decide (listing_id n ∈ seen)); [apply IH|].
  simpl. constructor; [|apply IH].
  rewrite list_elem_of_In, in_map_iff. intros (l & Hid & Hl).
  apply first_occurrences_fresh in Hl. set_solver.
Qed.

Lemma first_occurrences_ids (seen : gset string) (ls : list Listing) :
  ids_of (first_occurrences seen ls) = ids_of ls ∖ seen.
Proof.
  revert seen. induction ls as [|n ls IH]; intros seen; simpl.
  - unfold ids_of. simpl. set_solver.
  - destruct (bool_decide (listing_id n ∈ seen)) eqn:B.
    + apply bool_decide_eq_true in B. rewrite IH, ids_of_cons.
      clear IH. generalize (ids_of ls). intros A.
      generalize dependent (listing_id n). intros x B. set_solver.
    + apply bool_decide_eq_false in B. rewrite !ids_of_cons, IH.
      clear IH. generalize (ids_of ls). intros A.
      generalize dependent (listing_id n). intros x B.
      apply set_eq. intros y. destruct (decide (y = x)) as [->|]; set_solver.
Qed.

Lemma first_occurrences_first (seen : gset string) (ls : list Listing) :
  forall l, In l (first_occurrences seen ls) ->
    exists pre post,
      ls = pre ++ l :: post /\ ~ In (listing_id l) (map listing_id pre).
Proof.
  revert seen. induction ls as [|n ls IH]; intros seen l; simpl; [tauto|].
  destruct (bool_decide (listing_id n ∈ seen)) eqn:B.
  - apply bool_decide_eq_true in B. intros H.
    pose proof (first_occurrences_fresh _ _ _ H) as Hl.
    apply IH in H as (pre & post & -> & Hpre).
    exists (n :: pre), post. split; [reflexivity|].
    simpl. intros [E|E]; [|tauto]. rewrite E in B. contradiction.
  - intros [<-|H].
    + exists [], ls. split; [reflexivity|]. simpl. tauto.
    + pose proof (first_occurrences_fresh _ _ _ H) as Hl.
      apply IH in H as (pre & post & -> & Hpre).
      exists (n :: pre), post. split; [reflexivity|].
      simpl. intros [E|E]; [|tauto]. set_solver.
Qed.

(** C7: in one walk no two listings yielded share an identifier; a listing
    is yielded only as the first normalised record with its identifier, every
    identifier of a normalised record is yielded, and the number of listings
    yielded is the number of distinct identifiers among the normalised
    records. *)
Theorem walk_yields_each_identifier_once (fuel : nat) (self : ZapScraper)
    (nb : Neighborhood) (max_pages : option Z) (w : World) :
  let r := iterate_listings clock fuel self nb max_pages w in
  let records := walk_records clock fuel self nb max_pages 1 w in
  NoDup (map listing_id (emitted r))
  /\ (forall l, In l (emitted r) ->
        exists pre post,
          records = pre ++ l :: post /\ ~ In (listing_id l) (map listing_id pre))
  /\ (forall n, In n records -> In (listing_id n) (map listing_id (emitted r)))
  /\ length (emitted r) = size (ids_of records).
Proof.
  unfold iterate_listings. simpl. rewrite walk_emitted.
  set (records := walk_records clock fuel self nb max_pages 1 w).
  pose proof (first_occurrences_ids ∅ records) as Hids.
  pose proof (first_occurrences_NoDup ∅ records) as Hnd.
  repeat split.
  - exact Hnd.
  - apply first_occurrences_first.
  - intros n Hn. apply list_elem_of_In.
    apply (elem_of_list_to_set (C := gset string)). fold (ids_of (first_occurrences ∅ records)).
    rewrite Hids. apply elem_of_difference. split; [|set_solver].
    unfold ids_of. apply elem_of_list_to_set, list_elem_of_In, in_map, Hn.
  - replace (ids_of records) with (ids_of (first_occurrences ∅ records))
      by (rewrite Hids; set_solver).
    unfold ids_of. rewrite size_list_to_set by exact Hnd.
    rewrite length_map. reflexivity.
Qed.

(** ** Capture timestamps *)

Lemma stamped_le (lo hi : nat) (ls : list Listing) :
  stamped clock lo ls hi -> (lo <= hi)%nat.
Proof. induction 1; lia. Qed.

Lemma stamped_lower (lo lo' hi : nat) (ls : list Listing) :
  (lo' <= lo)%nat -> stamped clock lo ls hi -> stamped clock lo' ls hi.
Proof.
  intros Hlo H. destruct H.
  - constructor. lia.
  - econstructor; [|eassumption..]. lia.
Qed.

Lemma stamped_app (lo mid hi : nat) (a b : list Listing) :
  stamped clock lo a mid -> stamped clock mid b hi -> stamped clock lo (a ++ b) hi.
Proof.
  induction 1 as [lo mid Hle|lo i l ls mid Hle Hl Hs IH]; intros Hb; simpl.
  - eapply stamped_lower; eassumption.
  - econstructor; eauto.
Qed.

Lemma for_raw_listings_stamped (raws : list dict) :
  forall seen_ids w ls res w',
    for_raw_listings clock raws seen_ids w = (ls, res, w') ->
    stamped clock (clock_reads w) ls (clock_reads w').
Proof.
  induction raws as [|raw raws IH]; simpl; intros seen_ids w ls res w' H.
  - injection H as <- <- <-. constructor. lia.
  - destruct (_normalise_listing clock raw w) as [[[l|]|e] w1] eqn:E.
    + apply normalise_listing_some in E as (_ & _ & Hl & ->).
      destruct (bool_decide (listing_id l ∈ seen_ids)).
      * apply IH in H. eapply stamped_lower; [|exact H]. simpl. lia.
      * destruct (for_raw_listings clock raws ({[listing_id l]} ∪ seen_ids) (tick w))
          as [[ls1 res1] w2] eqn:E2.
        injection H as <- <- <-. apply IH in E2.
        econstructor; [|exact Hl|exact E2]. lia.
    + apply normalise_listing_none in E as (_ & ->). eapply IH, H.
    + apply normalise_listing_raise in E as ->.
      injection H as <- <- <-. constructor. lia.
Qed.

Lemma fetch_page_clock (self : ZapScraper) (nb : Neighborhood) (page : Z)
    (w w' : World) (r : result json) :
  _fetch_page self nb page w = (r, w') -> clock_reads w' = clock_reads w.
Proof.
  intros [(-> & _)|(u & _ & ->)]%fetch_page_world; reflexivity.
Qed.

Lemma walk_stamped (fuel : nat) (self : ZapScraper) (nb : Neighborhood)
    (max_pages : option Z) :
  forall page seen_ids w,
    let r := walk clock fuel self nb max_pages page seen_ids w in
    stamped clock (clock_reads w) (emitted r) (clock_reads (after r)).
Proof.
  induction fuel as [|fuel IH]; intros page seen_ids w; simpl;
    [constructor; lia|].
  destruct (over_ceiling max_pages page); [constructor; simpl; lia|].
  destruct (_fetch_page self nb page w) as [[payload|e] w1] eqn:F;
    apply fetch_page_clock in F; [|constructor; simpl; lia].
  destruct (_extract_raw_listings payload) as [[|raw raws]|e];
    try (constructor; simpl; lia).
  destruct (for_raw_listings clock (raw :: raws) seen_ids w1) as [[ls res] w2] eqn:E.
  apply for_raw_listings_stamped in E. rewrite F in E.
  destruct res as [seen_ids'|e]; [|exact E].
  destruct (Z.of_nat (length (raw :: raws)) <? page_size self)%Z; [exact E|].
  destruct (if float_truthy (delay self) then sleep (delay self) w2
            else (Ok tt, w2)) as [[[]|e] w3] eqn:P.
  - assert (Hc : clock_reads w3 = clock_reads w2).
    { destruct (float_truthy (delay self));
        [apply sleep_world in P; tauto|injection P as <-; reflexivity]. }
    simpl. eapply stamped_app; [exact E|].
    rewrite <- Hc. apply IH.
  - assert (Hc : clock_reads w3 = clock_reads w2).
    { destruct (float_truthy (delay self));
        [apply sleep_world in P; tauto|discriminate]. }
    simpl. rewrite Hc. exact E.
Qed.

Lemma scrape_over_stamped (fuel : nat) (self : ZapScraper) (max_pages : option Z)
    (nbs : list Neighborhood) :
  forall w,
    let r := scrape_over clock fuel self nbs max_pages w in
    stamped clock (clock_reads w) (emitted r) (clock_reads (after r)).
Proof.
  induction nbs as [|nb nbs IH]; intros w; simpl; [constructor; lia|].
  pose proof (walk_stamped fuel self nb max_pages 1 ∅ w) as H. simpl in H.
  fold (iterate_listings clock fuel self nb max_pages w) in H.
  destruct (stop (iterate_listings clock fuel self nb max_pages w)); try exact H.
  simpl. eapply stamped_app; [exact H|apply IH].
Qed.

Lemma stamped_reads (lo hi : nat) (ls : list Listing) :
  stamped clock lo ls hi ->
  exists reads,
    map captured_at ls = map clock reads
    /\ StronglySorted lt reads
    /\ Forall (fun i => (lo <= i < hi)%nat) reads.
Proof.
  induction 1 as [lo hi Hle|lo i l ls hi Hle Hl Hs (reads & Hm & Hsorted & Hall)].
  - exists []. repeat split; constructor.
  - exists (i :: reads). simpl. rewrite Hl, Hm. split; [reflexivity|].
    apply stamped_le in Hs. split.
    + constructor; [exact Hsorted|].
      eapply Forall_impl; [exact Hall|]. simpl. intros; lia.
    + constructor; [lia|].
      eapply Forall_impl; [exact Hall|]. simpl. intros; lia.
Qed.

Lemma stamped_constant (lo hi : nat) (ls : list Listing) (t : datetime) :
  stamped clock lo ls hi ->
  (forall i, (lo <= i < hi)%nat -> clock i = t) ->
  Forall (fun l => captured_at l = t) ls.
Proof.
  induction 1 as [lo hi Hle|lo i l ls hi Hle Hl Hs IH]; intros Ht; constructor.
  - rewrite Hl. apply Ht. apply stamped_le in Hs. lia.
  - apply IH. intros j Hj. apply Ht. lia.
Qed.

Lemma stamped_injective (lo hi : nat) (ls : list Listing) :
  stamped clock lo ls hi ->
  (forall i j, (lo <= i < hi)%nat -> (lo <= j < hi)%nat -> clock i = clock j -> i = j) ->
  NoDup (map captured_at ls).
Proof.
  intros Hs Hinj. destruct (stamped_reads _ _ _ Hs) as (reads & Hm & Hsorted & Hall).
  rewrite Hm. clear Hm Hs.
  induction Hsorted as [|i reads Hsorted IH Hi]; simpl; constructor.
  - rewrite list_elem_of_In, in_map_iff. intros (j & Hj & Hin).
    apply Forall_cons in Hall as [Hlo Hall].
    rewrite List.Forall_forall in Hi, Hall.
    specialize (Hi j Hin). specialize (Hall j Hin).
    apply Hinj in Hj; [lia|assumption..].
  - apply IH. apply Forall_cons in Hall as [_ Hall]. exact Hall.
Qed.

(** C1 (amended): [scrape] establishes no timestamp of its own. Each listing
    of a run carries the reading of the clock taken when its record was
    normalised: these are distinct readings, taken in the order of emission
    during the run. The listings of a run therefore share one [captured_at]
    exactly when the clock returned the same value at the readings that
    stamped them, as it does when it is constant over the run; they carry
    pairwise different values when the clock never returns a value twice
    during the run. *)
Theorem scrape_stamps_each_listing (fuel : nat) (self : ZapScraper)
    (max_pages : option Z) (w : World) :
  let r := scrape clock fuel self max_pages w in
  (exists reads,
     map captured_at (emitted r) = map clock reads
     /\ StronglySorted lt reads
     /\ Forall (fun i => (clock_reads w <= i < clock_reads (after r))%nat) reads
     /\ forall t,
          Forall (fun l => captured_at l = t) (emitted r)
          <-> Forall (fun i => clock i = t) reads)
  /\ (forall t,
        (forall i, (clock_reads w <= i < clock_reads (after r))%nat -> clock i = t) ->
        Forall (fun l => captured_at l = t) (emitted r))
  /\ ((forall i j,
         (clock_reads w <= i < clock_reads (after r))%nat ->
         (clock_reads w <= j < clock_reads (after r))%nat ->
         clock i = clock j -> i = j) ->
      NoDup (map captured_at (emitted r))).
Proof.
  pose proof (scrape_over_stamped fuel self max_pages (neighborhoods self) w) as H.
  simpl in *. fold (scrape clock fuel self max_pages w) in H. split; [|split].
  - destruct (stamped_reads _ _ _ H) as (reads & Hm & Hsorted & Hall).
    exists reads. repeat split; try assumption.
    + intros Hl. apply List.Forall_forall. intros i Hi.
      apply (in_map clock) in Hi. rewrite <- Hm in Hi.
      apply in_map_iff in Hi as (l & <- & Hin).
      rewrite List.Forall_forall in Hl. apply Hl, Hin.
    + intros Hr. apply List.Forall_forall. intros l Hl.
      apply (in_map captured_at) in Hl. rewrite Hm in Hl.
      apply in_map_iff in Hl as (i & <- & Hin).
      rewrite List.Forall_forall in Hr. apply Hr, Hin.
  - intros t. eapply stamped_constant, H.
  - eapply stamped_injective, H.
Qed.

End Walker.

(** ** The properties on the fixture *)


(** C1 as stated fails: the two listings of one run over the fixture carry
    two different timestamps. *)
Lemma one_run_two_timestamps :
  stop (scrape sample_clock 2 fixture_scraper None initial_world) = Exhausted
  /\ map captured_at (emitted (scrape sample_clock 2 fixture_scraper None initial_world))
     = [sample_clock 0; sample_clock 1]
  /\ sample_clock 0 <> sample_clock 1.
Proof.
  split; [vm_compute; reflexivity|].
  split; [vm_compute; reflexivity|].
  discriminate.
Qed.

(** C1 (amended) on the fixture, under a frozen clock. *)
Lemma scrape_stamps_each_listing_witness :
  Forall (fun l => captured_at l = mkDatetime 2024 1 1 12 0 0 0)
    (emitted (scrape frozen_clock 2 fixture_scraper None initial_world)).
Proof.
  pose proof (scrape_stamps_each_listing frozen_clock 2 fixture_scraper None
                initial_world) as H.
  cbv zeta in H. destruct H as (_ & H & _). apply H. intros i _. reflexivity.
Defined.

(* ===================================================================== *)
(** * Persistence *)
(* ===================================================================== *)

(** ** INSERT ... ON CONFLICT on a keyed table *)

Section Upsert.

Context {R K : Type} `{EqDecision K}.
Variable key : R -> K.
Variable update : R -> R -> R.

(** The conflict target is the key, and DO UPDATE leaves the key alone. *)
Hypothesis update_key : forall old new, key (update old new) = key old.

Lemma with_key_absent (k : K) (rows : list R) :
  ~ In k (map key rows) -> with_key key k rows = [].
Proof using Type.
  induction rows as [|r rows IH]; simpl; intros H; [reflexivity|].
  rewrite bool_decide_eq_false_2 by tauto. apply IH. tauto.
Qed.

Lemma with_key_present (k : K) (rows : list R) (r : R) :
  NoDup (map key rows) -> In r rows -> key r = k -> with_key key k rows = [r].
Proof using Type.
  induction rows as [|x rows IH]; simpl; intros Hnd Hin Hk; [tauto|].
  apply NoDup_cons in Hnd as [Hx Hnd]. rewrite list_elem_of_In in Hx.
  destruct Hin as [->|Hin].
  - rewrite bool_decide_eq_true_2 by exact Hk. f_equal.
    apply with_key_absent. congruence.
  - rewrite bool_decide_eq_false_2.
    + apply IH; assumption.
    + intros E. apply Hx. rewrite E, <- Hk. apply in_map, Hin.
Qed.

Lemma upsert_keys_present (new : R) (rows : list R) :
  In (key new) (map key rows) ->
  map key (upsert (key_conflict key) update new rows) = map key rows.
Proof using update_key.
  induction rows as [|old rows IH]; simpl; [tauto|]. intros Hin.
  unfold key_conflict at 1. case_bool_decide as E; simpl.
  - rewrite update_key. reflexivity.
  - f_equal. apply IH. destruct Hin; congruence.
Qed.

Lemma upsert_keys_absent (new : R) (rows : list R) :
  ~ In (key new) (map key rows) ->
  map key (upsert (key_conflict key) update new rows) = map key rows ++ [key new].
Proof using Type.
  induction rows as [|old rows IH]; simpl; [reflexivity|]. intros Hin.
  unfold key_conflict at 1. rewrite bool_decide_eq_false_2 by tauto.
  simpl. f_equal. apply IH. tauto.
Qed.

(** The keys of the table only grow. *)
Lemma upsert_keeps_keys (new : R) (rows : list R) (k : K) :
  In k (map key rows) -> In k (map key (upsert (key_conflict key) update new rows)).
Proof using update_key.
  intros Hk. destruct (in_dec (fun x y => decide (x = y)) (key new) (map key rows)) as [Hin|Hin].
  - rewrite upsert_keys_present; assumption.
  - rewrite upsert_keys_absent by assumption. apply in_or_app. auto.
Qed.

Lemma upsert_has_key (new : R) (rows : list R) :
  In (key new) (map key (upsert (key_conflict key) update new rows)).
Proof using update_key.
  destruct (in_dec (fun x y => decide (x = y)) (key new) (map key rows)) as [Hin|Hin].
  - rewrite upsert_keys_present; assumption.
  - rewrite upsert_keys_absent by assumption. apply in_or_app. simpl. auto.
Qed.

Lemma upsert_NoDup (new : R) (rows : list R) :
  NoDup (map key rows) -> NoDup (map key (upsert (key_conflict key) update new rows)).
Proof using update_key.
  intros Hnd. destruct (in_dec (fun x y => decide (x = y)) (key new) (map key rows)) as [Hin|Hin].
  - rewrite upsert_keys_present; assumption.
  - rewrite upsert_keys_absent by assumption.
    apply NoDup_app. split; [exact Hnd|]. split.
    + intros k Hk Hk'. apply list_elem_of_In in Hk'. destruct Hk' as [E|[]].
      subst k. apply Hin, list_elem_of_In, Hk.
    + apply NoDup_singleton.
Qed.



(** The rows with another key are left as they are. *)
Lemma upsert_frame (new : R) (rows : list R) :
  without_key key (key new) (upsert (key_conflict key) update new rows)
  = without_key key (key new) rows.
Proof using update_key.
  induction rows as [|old rows IH]; simpl.
  - rewrite bool_decide_eq_true_2; reflexivity.
  - unfold key_conflict at 1. case_bool_decide as E; simpl.
    + rewrite update_key. rewrite bool_decide_eq_true_2 by exact E. reflexivity.
    + rewrite bool_decide_eq_false_2 by exact E. simpl. f_equal. apply IH.
Qed.


End Upsert.

(** ** The two tables *)

Lemma listing_update_key (old new : listing_row) :
  l_listing_id (listing_update old new) = l_listing_id old.
Proof. reflexivity. Qed.

Lemma price_update_key (old new : price_row) :
  ph_key (price_update old new) = ph_key old.
Proof. reflexivity. Qed.


Lemma persist_rows_listings (l : Listing) (db : database) :
  listings (persist_rows l db)
  = upsert (key_conflict l_listing_id) listing_update (snapshot_row l) (listings db).
Proof. reflexivity. Qed.

Lemma persist_rows_price_history (l : Listing) (db : database) :
  price_history (persist_rows l db)
  = upsert (key_conflict ph_key) price_update (point_row l) (price_history db).
Proof. reflexivity. Qed.

Lemma upsert_In {R : Type} (conflict : R -> R -> bool) (update : R -> R -> R)
    (new r : R) (rows : list R) :
  In r (upsert conflict update new rows) ->
  In r rows \/ r = new \/ exists old, In old rows /\ r = update old new.
Proof.
  induction rows as [|x rows IH]; simpl.
  - intros [<-|[]]. auto.
  - destruct (conflict x new); simpl.
    + intros [<-|H]; [|auto]. right. right. exists x. auto.
    + intros [<-|H]; [auto|].
      apply IH in H as [H|[H|(old & H & E)]]; auto.
      right. right. exists old. auto.
Qed.

(** The schema holds on a fresh file and is kept by every write. *)
Lemma ensure_schema_wf : db_wf _ensure_schema.
Proof. constructor; simpl; [constructor|constructor|tauto]. Qed.

Lemma persist_rows_wf (l : Listing) (db : database) :
  db_wf db -> db_wf (persist_rows l db).
Proof.
  intros [Hpk Huq Hfk]. constructor.
  - rewrite persist_rows_listings. apply upsert_NoDup; [apply listing_update_key|exact Hpk].
  - rewrite persist_rows_price_history. apply upsert_NoDup; [apply price_update_key|exact Huq].
  - intros r. rewrite persist_rows_price_history, persist_rows_listings.
    intros [H|[->|(old & H & ->)]]%upsert_In.
    + apply upsert_keeps_keys; [apply listing_update_key|]. apply Hfk, H.
    + apply (upsert_has_key l_listing_id listing_update listing_update_key
               (snapshot_row l)).
    + change (ph_listing_id (price_update old (point_row l)))
        with (ph_listing_id old).
      apply upsert_keeps_keys; [apply listing_update_key|]. apply Hfk, H.
Qed.


(** ** Binding the parameters *)

Lemma bind_int_in_64_bits (v : option Z) :
  bind_int v = if in_64_bits v then Ok v else Raise OverflowError.
Proof.
  destruct v as [z|]; [|reflexivity]. unfold bind_int.
  assert (E : fits_int64 z = in_64_bits (Some z)).
  { unfold fits_int64, in_64_bits. change (2 ^ 63)%Z with 9223372036854775808%Z.
    apply Bool.eq_iff_eq_true. rewrite !andb_true_iff, !Z.leb_le, Z.ltb_lt. lia. }
  rewrite E. reflexivity.
Qed.


Lemma bind_listing_storable (l : Listing) :
  bind_listing (listing_params l)
  = if storable l then Ok (snapshot_row l) else Raise OverflowError.
Proof.
  unfold bind_listing, storable. simpl. rewrite !bind_int_in_64_bits.
  destruct (in_64_bits (bedrooms l)), (in_64_bits (bathrooms l)),
    (in_64_bits (parking_spaces l)); reflexivity.
Qed.

Lemma persist_with_cursor_eq (conn : connection) (l : Listing) :
  _persist_listing_with_cursor conn l
  = if storable l
    then (Ok tt, {| stored := stored conn; seen := persist_rows l (seen conn) |})
    else (Raise OverflowError, conn).
Proof.
  unfold _persist_listing_with_cursor, insert_listing.
  rewrite bind_listing_storable. destruct (storable l); reflexivity.
Qed.

Lemma persist_listing_eq (db : database) (l : Listing) :
  persist_listing db l
  = if storable l then (Ok tt, persist_rows l db) else (Raise OverflowError, db).
Proof.
  unfold persist_listing, with_connection. rewrite persist_with_cursor_eq.
  destruct (storable l); reflexivity.
Qed.

(** ** [persist_many] *)

Lemma persist_loop_spec (it : iterable) :
  forall count conn,
    persist_loop it count conn =
    (match batch_error it with
     | Some e => Raise e
     | None => Ok (count + Z.of_nat (length (written it)))%Z
     end,
     {| stored := stored conn; seen := persist_all (written it) (seen conn) |}).
Proof.
  induction it as [|l rest IH|e]; intros count conn; simpl.
  - destruct conn. simpl. do 2 f_equal. lia.
  - rewrite persist_with_cursor_eq. destruct (storable l).
    + rewrite IH. simpl. f_equal. destruct (batch_error rest); [reflexivity|].
      f_equal. lia.
    + destruct conn. reflexivity.
  - destruct conn. reflexivity.
Qed.

Lemma written_yielded (it : iterable) :
  batch_error it = None -> written it = yielded it.
Proof.
  induction it as [|l rest IH|e]; simpl; [reflexivity| |discriminate].
  destruct (storable l); [|discriminate]. intros H. rewrite IH by exact H.
  reflexivity.
Qed.

Lemma persist_many_spec (db : database) (it : iterable) :
  persist_many db it =
  match batch_error it with
  | Some e => (Raise e, db)
  | None => (Ok (Z.of_nat (length (yielded it))), persist_all (yielded it) db)
  end.
Proof.
  unfold persist_many, with_connection. rewrite persist_loop_spec.
  destruct (batch_error it) eqn:E; [reflexivity|].
  rewrite (written_yielded it E). reflexivity.
Qed.

(** What ends a batch is the iterable, or a listing that cannot be
    written. *)
Lemma batch_error_cases (it : iterable) :
  match batch_error it with
  | None => raises it = None /\ Forall (fun l => storable l = true) (yielded it)
  | Some e =>
      raises it = Some e
      \/ (e = OverflowError /\ Exists (fun l => storable l = false) (yielded it))
  end.
Proof.
  induction it as [|l rest IH|e]; simpl; [auto| |auto].
  destruct (storable l) eqn:S.
  - destruct (batch_error rest) as [e|].
    + destruct IH as [IH|[-> IH]]; [auto|]. right. split; [reflexivity|].
      apply Exists_cons. auto.
    + destruct IH as [IH1 IH2]. split; [exact IH1|]. constructor; assumption.
  - right. split; [reflexivity|]. apply Exists_cons. auto.
Qed.


Lemma persist_all_wf (ls : list Listing) :
  forall db, db_wf db -> db_wf (persist_all ls db).
Proof.
  induction ls as [|l ls IH]; intros db H; simpl; [exact H|].
  apply IH, persist_rows_wf, H.
Qed.

(** What the scraper makes of the two sample records. *)
Lemma crowded_flat_normalised :
  _normalise_listing sample_clock crowded_flat initial_world
  = (Ok (Some crowded_listing), tick initial_world).
Proof. vm_compute. reflexivity. Qed.

Lemma unpriced_flat_normalised :
  _normalise_listing sample_clock unpriced_flat initial_world
  = (Ok (Some unpriced_listing), tick initial_world).
Proof. vm_compute. reflexivity. Qed.

(** ** Idempotent history *)




(** ** The snapshot table *)




(** ** Batches are atomic *)

(** C10: [persist_many] runs in one transaction. When the batch comes to an
    error, be it the iterable that raises or a listing that cannot be
    written, the call raises that exception and the database is as it was
    before the call, whatever was written before the exception; otherwise
    the call returns the number of listings consumed, and the database holds
    them all. *)
Theorem persist_many_is_atomic (db : database) (it : iterable) :
  persist_many db it
  = match batch_error it with
    | Some e => (Raise e, db)
    | None =>
        (Ok (Z.of_nat (length (yielded it))),
         fold_left (fun d l => persist_rows l d) (yielded it) db)
    end
  /\ match batch_error it with
     | Some e =>
         raises it = Some e
         \/ (e = OverflowError
             /\ Exists (fun l => persist_listing db l = (Raise OverflowError, db))
                  (yielded it))
     | None =>
         raises it = None
         /\ Forall (fun l => exists db', persist_listing db l = (Ok tt, db'))
              (yielded it)
     end.
Proof.
  split; [apply persist_many_spec|].
  pose proof (batch_error_cases it) as H.
  destruct (batch_error it) as [e|].
  - destruct H as [H|[-> H]]; [auto|]. right. split; [reflexivity|].
    eapply Exists_impl; [exact H|]. simpl. intros l S.
    rewrite persist_listing_eq, S. reflexivity.
  - destruct H as [H1 H2]. split; [exact H1|].
    eapply Forall_impl; [exact H2|]. simpl. intros l S.
    rewrite persist_listing_eq, S. eauto.
Qed.

(** A batch that raises after its first listing leaves a fresh database
    empty, and so does a batch whose second listing cannot be written. *)
Lemma failed_batch_leaves_nothing :
  persist_many _ensure_schema (Yield fixture_listing (Throw RuntimeError))
  = (Raise RuntimeError, _ensure_schema)
  /\ persist_many _ensure_schema (Yield fixture_listing (Yield crowded_listing Stop))
     = (Raise OverflowError, _ensure_schema).
Proof. split; reflexivity. Qed.

(* ===================================================================== *)
(** * The daily average of a neighbourhood *)
(* ===================================================================== *)

(** The order in which the query sorts the dates is that of the calendar. *)
Lemma date_ltb_spec (a b : date) : date_ltb a b = true <-> date_lt a b.
Proof.
  unfold date_ltb, date_lt.
  rewrite !orb_true_iff, !andb_true_iff, !orb_true_iff, !andb_true_iff,
    !Z.ltb_lt, !Z.eqb_eq.
  reflexivity.
Qed.

Lemma date_eq_fields (a b : date) :
  a = b <-> d_year a = d_year b /\ d_month a = d_month b /\ d_day a = d_day b.
Proof.
  destruct a, b; simpl. split.
  - intros [= -> -> ->]. auto.
  - intros (-> & -> & ->). reflexivity.
Qed.

Lemma date_lt_trans (a b c : date) : date_lt a b -> date_lt b c -> date_lt a c.
Proof. unfold date_lt. lia. Qed.

Lemma date_lt_total (a b : date) : date_ltb a b = false -> a <> b -> date_lt b a.
Proof.
  intros Hab Hne.
  assert (H : ~ date_ltb a b = true) by congruence.
  rewrite date_ltb_spec in H. rewrite date_eq_fields in Hne.
  unfold date_lt in *. lia.
Qed.

Lemma insert_date_In (d y : date) (ds : list date) :
  In y (insert_date d ds) <-> y = d \/ In y ds.
Proof.
  induction ds as [|x r IH]; simpl; [intuition congruence|].
  destruct (date_ltb d x); simpl; [intuition congruence|].
  case_bool_decide as E; simpl.
  - subst. intuition congruence.
  - rewrite IH. intuition congruence.
Qed.

Lemma sorted_dates_In (y : date) (ds : list date) :
  In y (sorted_dates ds) <-> In y ds.
Proof.
  induction ds as [|d ds IH]; simpl; [tauto|].
  rewrite insert_date_In, IH. intuition congruence.
Qed.

Lemma insert_date_HdRel (x d : date) (r : list date) :
  date_lt x d -> HdRel date_lt x r -> HdRel date_lt x (insert_date d r).
Proof.
  intros Hxd Hr. destruct r as [|y r]; simpl; [constructor; exact Hxd|].
  apply HdRel_inv in Hr.
  destruct (date_ltb d y); [constructor; exact Hxd|].
  case_bool_decide; constructor; exact Hr.
Qed.

Lemma insert_date_Sorted (d : date) (ds : list date) :
  Sorted date_lt ds -> Sorted date_lt (insert_date d ds).
Proof.
  induction ds as [|x r IH]; simpl; intros Hs.
  - repeat constructor.
  - destruct (date_ltb d x) eqn:L.
    + constructor; [exact Hs|]. constructor. apply date_ltb_spec, L.
    + case_bool_decide as E; [exact Hs|].
      apply Sorted_inv in Hs as [Hs Hh].
      constructor; [apply IH, Hs|].
      apply insert_date_HdRel; [|exact Hh].
      apply date_lt_total; assumption.
Qed.

Lemma sorted_dates_sorted (ds : list date) :
  StronglySorted date_lt (sorted_dates ds).
Proof.
  apply Sorted_StronglySorted.
  - intros a b c. apply date_lt_trans.
  - induction ds as [|d ds IH]; simpl; [constructor|].
    apply insert_date_Sorted, IH.
Qed.


(** With a primary key on [listings], the join pairs a history point with
    at most one snapshot row. *)
Lemma join_one_point (nb : string) (flag : option bool) (ph : price_row)
    (ls : list listing_row) :
  NoDup (map l_listing_id ls) ->
  map fst
    (List.filter (where_clause nb flag)
       (map (fun l => (ph, l))
          (List.filter (fun l => bool_decide (l_listing_id l = ph_listing_id ph)) ls)))
  = if (existsb (fun l => bool_decide (l_listing_id l = ph_listing_id ph)
                          && bool_decide (l_neighborhood l = nb)) ls
        && match flag with
           | Some b => bool_decide (ph_furnished ph = int_of_bool b)
           | None => true
           end)%bool
    then [ph] else [].
Proof.
  induction ls as [|x ls IH]; simpl; intros Hnd; [reflexivity|].
  apply NoDup_cons in Hnd as [Hx Hnd]. rewrite list_elem_of_In in Hx.
  case_bool_decide as E; simpl.
  - assert (Hnone : ~ In (ph_listing_id ph) (map l_listing_id ls)) by congruence.
    fold (with_key l_listing_id (ph_listing_id ph) ls).
    rewrite (with_key_absent l_listing_id _ _ Hnone). simpl.
    assert (Hex : existsb (fun l => bool_decide (l_listing_id l = ph_listing_id ph)
                                    && bool_decide (l_neighborhood l = nb)) ls = false).
    { clear -Hnone. induction ls as [|y ls IH]; simpl; [reflexivity|].
      simpl in Hnone. rewrite bool_decide_eq_false_2 by tauto. simpl.
      apply IH. tauto. }
    rewrite Hex, orb_false_r. unfold where_clause. simpl.
    destruct (bool_decide (l_neighborhood x = nb)); simpl; [|reflexivity].
    destruct flag as [b|]; [|reflexivity].
    unfold int_of_bool.
    destruct (bool_decide (ph_furnished ph = if b then 1%Z else 0%Z)); reflexivity.
  - apply IH, Hnd.
Qed.

Lemma selected_points (db : database) (nb : string) (flag : option bool) :
  NoDup (map l_listing_id (listings db)) ->
  map fst (List.filter (where_clause nb flag) (join_listings db))
  = List.filter (considered db nb flag) (price_history db).
Proof.
  intros Hnd. unfold join_listings.
  induction (price_history db) as [|ph phs IH]; simpl; [reflexivity|].
  rewrite List.filter_app, map_app, IH, (join_one_point nb flag ph _ Hnd).
  fold (considered db nb flag ph).
  destruct (considered db nb flag ph); reflexivity.
Qed.






(** ** The scenario of the storage test *)

Lemma test_database_wf : db_wf test_database.
Proof. apply persist_all_wf, ensure_schema_wf. Qed.

Lemma test_database_daily_average :
  get_neighborhood_daily_average test_database "Pinheiros" (Some true)
  = [ {| captured_date := mkDate 2024 1 1;
         avg_rent_price := Some 5000%float;
         avg_price_per_m2 := Some 62.5%float;
         listings_count := 1 |};
      {| captured_date := mkDate 2024 1 2;
         avg_rent_price := Some 4100%float;
         avg_price_per_m2 := Some 65%float;
         listings_count := 2 |} ].
Proof. vm_compute. reflexivity. Qed.


(* ===================================================================== *)
(** * Further properties of the scraper *)
(* ===================================================================== *)

(** ** Texts *)

Lemma lstrip_head_not_blank (s : string) : head_not_blank (lstrip s).
Proof.
  induction s as [|c r IH]; simpl; [exact I|].
  destruct (isspace c) eqn:E; [exact IH|exact E].
Qed.

Lemma lstrip_fixed (s : string) : head_not_blank s -> lstrip s = s.
Proof. destruct s as [|c r]; simpl; [reflexivity|]. intros ->. reflexivity. Qed.

Lemma rstrip_head_not_blank (s : string) :
  head_not_blank s -> head_not_blank (rstrip s).
Proof.
  destruct s as [|c r]; simpl; [auto|]. intros E.
  destruct (rstrip r); [rewrite E|]; exact E.
Qed.

Lemma rstrip_idempotent (s : string) : rstrip (rstrip s) = rstrip s.
Proof.
  induction s as [|c r IH]; simpl; [reflexivity|].
  destruct (rstrip r) as [|d t] eqn:E.
  - destruct (isspace c) eqn:B; simpl; [reflexivity|]. rewrite B. reflexivity.
  - simpl in IH |- *. rewrite IH. reflexivity.
Qed.

Lemma strip_idempotent (s : string) : strip (strip s) = strip s.
Proof.
  unfold strip.
  rewrite (lstrip_fixed (rstrip (lstrip s))).
  - apply rstrip_idempotent.
  - apply rstrip_head_not_blank, lstrip_head_not_blank.
Qed.

Lemma str_truthy_not_empty (s : string) : str_truthy s = true -> s <> EmptyString.
Proof. destruct s; [discriminate|]. intros _. discriminate. Qed.

Lemma remove_char_app (c : ascii) (a b : string) :
  remove_char c (a ++ b) = (remove_char c a ++ remove_char c b)%string.
Proof.
  induction a as [|d a IH]; simpl; [reflexivity|].
  destruct (Ascii.eqb c d); simpl; rewrite IH; reflexivity.
Qed.

(** ** Field extraction *)

(** X1: a "." or a "," anywhere in a numeric text is dropped before the
    text is parsed: the text is read as the same text without it, so that
    "60.50" is read as "6050" is. *)
Theorem get_float_ignores_separators (a b : string) :
  _get_float (JStr (a ++ "." ++ b)) = _get_float (JStr (a ++ b))
  /\ _get_float (JStr (a ++ "," ++ b)) = _get_float (JStr (a ++ b)).
Proof.
  unfold _get_float. split; do 2 f_equal.
  - rewrite !remove_char_app. reflexivity.
  - rewrite !remove_char_app. reflexivity.
Qed.

Lemma first_rental_spec (items : list json) :
  match first_rental items with
  | Some d => In (JDict d) items /\ get d "businessType" = JStr "RENTAL"
  | None =>
      forall d, In (JDict d) items -> get d "businessType" <> JStr "RENTAL"
  end.
Proof.
  induction items as [|v items IH]; simpl; [tauto|].
  destruct v as [| | | | | |item];
    try (destruct (first_rental items) as [d|];
         [destruct IH; auto | intros d [[=]|H]; auto]; fail).
  destruct (get item "businessType") as [| | | |s| |] eqn:E;
    try (destruct (first_rental items) as [d|];
         [destruct IH; auto | intros d [[= <-]|H]; [congruence|auto]]; fail).
  destruct (String.eqb s "RENTAL") eqn:B.
  - apply String.eqb_eq in B. subst s. auto.
  - apply String.eqb_neq in B.
    destruct (first_rental items) as [d|];
      [destruct IH; auto | intros d [[= <-]|H]; [congruence|auto]].
Qed.

Lemma first_dict_spec (items : list json) :
  match first_dict items with
  | Some d => In (JDict d) items
  | None => forall d, ~ In (JDict d) items
  end.
Proof.
  induction items as [|v items IH]; simpl; [tauto|].
  destruct v as [| | | | | |item]; try (simpl; auto; fail);
    destruct (first_dict items) as [d|]; auto;
    intros d [[=]|H]; eapply IH, H.
Qed.

(** X2: from a list of pricing blocks, [_select_pricing_info] takes a block
    of the list, and a rental one whenever the list holds one, wherever it
    stands; without any block in the list it gives the empty block. *)
Theorem select_pricing_info_prefers_rental (items : list json) :
  (In (JDict (_select_pricing_info (JList items))) items
   \/ ((forall d, ~ In (JDict d) items) /\ _select_pricing_info (JList items) = []))
  /\ forall d,
       In (JDict d) items -> get d "businessType" = JStr "RENTAL" ->
       get (_select_pricing_info (JList items)) "businessType" = JStr "RENTAL".
Proof.
  unfold _select_pricing_info.
  pose proof (first_rental_spec items) as Hr.
  pose proof (first_dict_spec items) as Hd.
  destruct (first_rental items) as [r|].
  - destruct Hr as [Hin Hb]. split; [auto|]. intros; exact Hb.
  - split.
    + destruct (first_dict items) as [d|]; auto.
    + intros d Hin Hb. exfalso. eapply Hr; eassumption.
Qed.

(** X2 on a sale block followed by a rental block. *)
Lemma select_pricing_info_prefers_rental_witness :
  get (_select_pricing_info
         (JList [JDict [("businessType", JStr "SALE"); ("price", JInt 900000)];
                 JDict [("businessType", JStr "RENTAL"); ("price", JInt 4800)]]))
    "businessType" = JStr "RENTAL".
Proof.
  apply (proj2 (select_pricing_info_prefers_rental _)
           [("businessType", JStr "RENTAL"); ("price", JInt 4800)]).
  - simpl. auto.
  - reflexivity.
Defined.

Lemma unwrap_items_length (items : list json) :
  length (unwrap_items items) = length (List.filter is_dict items).
Proof.
  induction items as [|v items IH]; simpl; [reflexivity|].
  destruct v as [| | | | | |item]; simpl; auto.
  destruct (lookup_key item "listing") as [[| | | | | |inner]|]; simpl; auto.
Qed.

(** X3: on a payload that is a dict, [_extract_raw_listings] never raises,
    and gives one raw record for each dict of the "listings" list, the other
    items being skipped; without a "listings" list it gives no record. On a
    payload that is not a dict it raises [AttributeError]. *)
Theorem extract_raw_listings_counts_dicts (payload : json) :
  match payload with
  | JDict d =>
      exists raws,
        _extract_raw_listings payload = Ok raws
        /\ length raws =
           match get d "listings" with
           | JList items => length (List.filter is_dict items)
           | _ => 0%nat
           end
  | _ => _extract_raw_listings payload = Raise AttributeError
  end.
Proof.
  destruct payload as [| | | | | |d]; try reflexivity.
  simpl. destruct (get d "listings") as [| | | | |items|]; eauto.
  eexists. split; [reflexivity|]. apply unwrap_items_length.
Qed.

(** ** Listings *)

Lemma first_id_trimmed (raw : dict) (keys : list string) (s : string) :
  first_id raw keys = Some s -> str_truthy s = true /\ strip s = s.
Proof.
  induction keys as [|k keys IH]; simpl; [intros [=]|].
  destruct (get raw k) as [| | | |v| |]; auto.
  destruct (str_truthy (strip v)) eqn:E; auto.
  intros [= <-]. split; [exact E|apply strip_idempotent].
Qed.

Lemma first_url_absolute (raw : dict) (keys : list string) (u : string) :
  first_url raw keys = Some u -> startswith "http" u = true.
Proof.
  induction keys as [|k keys IH]; simpl; [intros [=]|].
  destruct (get raw k) as [| | | |v| |d]; auto.
  - destruct (startswith "http" v) eqn:E; auto. intros [= <-]. exact E.
  - destruct (get d "href") as [| | | |h| |]; auto.
    destruct (startswith "http" h) eqn:E; auto. intros [= <-]. exact E.
Qed.

(** The title and the URL of the listing that the normaliser returns. *)
Lemma normalise_listing_title_url (clock : nat -> datetime) (raw : dict)
    (w w' : World) (l : Listing) :
  _normalise_listing clock raw w = (Ok (Some l), w') ->
  title l <> EmptyString /\ url l = _extract_url raw.
Proof.
  unfold _normalise_listing.
  destruct (_get_listing_id raw) as [i|]; [|unfold ret; intros [=]].
  unfold bind, lift, ret, now.
  repeat match goal with
         | |- context [match ?r with Ok _ => _ | Raise _ => _ end] =>
             destruct r eqn:?; [|intros [=]]
         end.
  intros [= <- <-]. simpl. split; [|reflexivity].
  match goal with
  | |- (if str_truthy ?t then _ else _) <> _ =>
      destruct (str_truthy t) eqn:T; [apply str_truthy_not_empty, T|]
  end.
  match goal with
  | |- (if ?b then _ else _) <> _ => destruct b; discriminate
  end.
Qed.

(** X4: every listing that the normaliser returns has an identifier that is
    not empty and has no blank at either end, a title that is not empty, and
    a URL that starts with "http": the one the record gives under "url",
    "link" or "detailUrl" (as a text or under "href") when it is absolute,
    and otherwise the page of the listing on the site, built from its
    identifier (never the bare address of the site). *)
Theorem listing_fields_well_formed (clock : nat -> datetime) (raw : dict)
    (w w' : World) (l : Listing) :
  _normalise_listing clock raw w = (Ok (Some l), w') ->
  listing_id l <> EmptyString
  /\ strip (listing_id l) = listing_id l
  /\ title l <> EmptyString
  /\ startswith "http" (url l) = true
  /\ (first_url raw url_keys = None ->
      url l = ("https://www.zapimoveis.com.br/imovel/" ++ listing_id l)%string).
Proof.
  intros H.
  pose proof (normalise_listing_title_url _ _ _ _ _ H) as (Ht & Hu).
  apply normalise_listing_some in H as (Hid & _).
  pose proof (first_id_trimmed _ _ _ Hid) as (Hne & Hs).
  split; [apply str_truthy_not_empty, Hne|].
  split; [exact Hs|]. split; [exact Ht|].
  rewrite Hu. unfold _extract_url. fold url_keys. rewrite Hid.
  destruct (first_url raw url_keys) as [u|] eqn:E.
  - split; [eapply first_url_absolute, E|discriminate].
  - split; [reflexivity|]. intros _. reflexivity.
Qed.

(** X4 on the second record of the fixture, which gives no URL. *)
Lemma listing_fields_well_formed_witness :
  exists l,
    fst (_normalise_listing sample_clock free_flat initial_world) = Ok (Some l)
    /\ url l = "https://www.zapimoveis.com.br/imovel/1".
Proof.
  destruct (_normalise_listing sample_clock free_flat initial_world)
    as [[[l|]|e] w'] eqn:E; try (vm_compute in E; discriminate E).
  exists l. split; [reflexivity|].
  destruct (listing_fields_well_formed _ _ _ _ _ E) as (_ & _ & _ & _ & Hu).
  rewrite (Hu eq_refl). vm_compute in E. injection E as <- _. reflexivity.
Defined.

(** X5: normalising a record makes no request and takes no pause; it reads
    the clock once when it returns a listing, and not at all when it drops
    the record or raises. *)
Theorem normalise_listing_effects (clock : nat -> datetime) (raw : dict)
    (w : World) :
  let '(r, w') := _normalise_listing clock raw w in
  requests w' = requests w
  /\ sleeps w' = sleeps w
  /\ clock_reads w' =
     match r with
     | Ok (Some _) => S (clock_reads w)
     | _ => clock_reads w
     end.
Proof.
  destruct (_normalise_listing clock raw w) as [[[l|]|e] w'] eqn:E.
  - apply normalise_listing_some in E as (_ & _ & _ & ->). simpl. auto.
  - apply normalise_listing_none in E as (_ & ->). auto.
  - apply normalise_listing_raise in E as ->. auto.
Qed.

(** ** The requests and the pauses of a walk *)

Lemma pages_from_succ (p : Z) (k : nat) :
  pages_from p (S k) = p :: pages_from (p + 1) k.
Proof.
  unfold pages_from. simpl. f_equal; [lia|].
  rewrite <- seq_shift, map_map. apply map_ext. intros i. lia.
Qed.

Lemma pages_from_bounds (p : Z) (k : nat) (q : Z) :
  In q (pages_from p k) -> (p <= q < p + Z.of_nat k)%Z.
Proof.
  unfold pages_from. rewrite in_map_iff. intros (i & <- & Hi).
  apply in_seq in Hi. lia.
Qed.

Section WalkerTraces.

Variable clock : nat -> datetime.
Variable self : ZapScraper.
Variable nb : Neighborhood.
Variable max_pages : option Z.

(** What a walk adds to the request log and to the pauses. *)
Lemma walk_trace (fuel : nat) :
  forall page seen_ids w,
    let r := walk clock fuel self nb max_pages page seen_ids w in
    exists (k n : nat) (urls : list string),
      (k <= fuel)%nat
      /\ requests (after r) = requests w ++ urls
      /\ map (_build_url self nb) (pages_from page k) = map Ok urls
      /\ sleeps (after r) = sleeps w ++ repeat (delay self) n
      /\ (n <= k)%nat
      /\ (float_truthy (delay self) = true -> (k <= S n)%nat)
      /\ (float_truthy (delay self) = false -> n = 0%nat)
      /\ (forall m, max_pages = Some m ->
            forall q, In q (pages_from page k) -> (q <= m)%Z).
Proof using Type.
  induction fuel as [|fuel IH]; intros page seen_ids w; simpl.
  - exists 0%nat, 0%nat, []. simpl. rewrite !app_nil_r.
    repeat split; auto; try lia; intros m _ q [].
  - assert (Hnone : forall w0 : World,
              exists (k n : nat) (urls : list string),
                (k <= S fuel)%nat
                /\ requests w0 = requests w0 ++ urls
                /\ map (_build_url self nb) (pages_from page k) = map Ok urls
                /\ sleeps w0 = sleeps w0 ++ repeat (delay self) n
                /\ (n <= k)%nat
                /\ (float_truthy (delay self) = true -> (k <= S n)%nat)
                /\ (float_truthy (delay self) = false -> n = 0%nat)
                /\ (forall m, max_pages = Some m ->
                      forall q, In q (pages_from page k) -> (q <= m)%Z)).
    { intros w0. exists 0%nat, 0%nat, []. simpl. rewrite !app_nil_r.
      repeat split; auto; try lia; intros m _ q []. }
    destruct (over_ceiling max_pages page) eqn:Hc; [apply Hnone|].
    assert (Hpage : forall m, max_pages = Some m -> (page <= m)%Z).
    { intros m ->. simpl in Hc. apply Z.ltb_ge in Hc. exact Hc. }
    destruct (_fetch_page self nb page w) as [r0 w1] eqn:F.
    destruct (fetch_page_world _ _ _ _ _ _ F) as [(-> & (e & ->) & _)|(u & Hu & ->)];
      [simpl; apply Hnone|].
    assert (Hone : forall w2 : World,
              requests w2 = requests w ++ [u] ->
              sleeps w2 = sleeps w ->
              exists (k n : nat) (urls : list string),
                (k <= S fuel)%nat
                /\ requests w2 = requests w ++ urls
                /\ map (_build_url self nb) (pages_from page k) = map Ok urls
                /\ sleeps w2 = sleeps w ++ repeat (delay self) n
                /\ (n <= k)%nat
                /\ (float_truthy (delay self) = true -> (k <= S n)%nat)
                /\ (float_truthy (delay self) = false -> n = 0%nat)
                /\ (forall m, max_pages = Some m ->
                      forall q, In q (pages_from page k) -> (q <= m)%Z)).
    { intros w2 Hr Hs. exists 1%nat, 0%nat, [u]. rewrite pages_from_succ. simpl.
      rewrite Hu, app_nil_r. repeat split; auto; try lia;
        intros m Hm q [<-|[]]; apply Hpage, Hm. }
    destruct r0 as [payload|e]; [|exact (Hone (logged w u) eq_refl eq_refl)].
    destruct (_extract_raw_listings payload) as [[|raw raws]|e];
      try exact (Hone (logged w u) eq_refl eq_refl).
    destruct (for_raw_listings clock (raw :: raws) seen_ids (logged w u))
      as [[ls res] w2] eqn:E.
    apply for_raw_listings_world in E as [Hr2 Hs2]. simpl in Hr2, Hs2.
    destruct res as [seen_ids'|e]; [|exact (Hone w2 Hr2 Hs2)].
    destruct (Z.of_nat (length (raw :: raws)) <? page_size self)%Z;
      [exact (Hone w2 Hr2 Hs2)|].
    cbv zeta in IH.
    destruct (float_truthy (delay self)) eqn:D.
    + destruct (sleep (delay self) w2) as [[[]|e] w3] eqn:P;
        apply sleep_world in P as (Hr3 & _ & Hs3).
      * destruct (IH (page + 1)%Z seen_ids' w3)
          as (k & n & urls & Hk & Hreq & Hurls & Hsl & Hnk & Hkn & _ & Hm).
        exists (S k), (S n), (u :: urls). simpl after.
        rewrite Hreq, Hsl, Hr3, Hr2, Hs3, Hs2, pages_from_succ. simpl map.
        rewrite Hu, Hurls, <- !app_assoc. simpl.
        repeat split; auto; try lia; try discriminate;
          try (intros _; specialize (Hkn eq_refl); lia);
          intros m Hmp q [<-|Hq]; [apply Hpage, Hmp|eapply Hm; eassumption].
      * subst w3. exact (Hone w2 Hr2 Hs2).
    + destruct (IH (page + 1)%Z seen_ids' w2)
        as (k & n & urls & Hk & Hreq & Hurls & Hsl & Hnk & _ & Hn0 & Hm).
      exists (S k), n, (u :: urls). simpl after.
      rewrite Hreq, Hsl, Hr2, Hs2, pages_from_succ. simpl map.
      rewrite Hu, Hurls, <- !app_assoc. simpl.
      repeat split; auto; try lia; try discriminate;
        intros m Hmp q [<-|Hq]; [apply Hpage, Hmp|eapply Hm; eassumption].
Qed.

Lemma walk_terminates (m : Z) (fuel : nat) :
  max_pages = Some m ->
  forall page seen_ids w,
    (Z.to_nat (m - page + 1) < fuel)%nat ->
    stop (walk clock fuel self nb max_pages page seen_ids w) <> OutOfFuel.
Proof using Type.
  intros Hm. induction fuel as [|fuel IH]; intros page seen_ids w Hf; [lia|].
  simpl. rewrite Hm. simpl.
  destruct (m <? page)%Z eqn:Hc; [discriminate|]. apply Z.ltb_ge in Hc.
  rewrite <- Hm.
  destruct (_fetch_page self nb page w) as [[payload|e] w1]; [|discriminate].
  destruct (_extract_raw_listings payload) as [[|raw raws]|e]; try discriminate.
  destruct (for_raw_listings clock (raw :: raws) seen_ids w1) as [[ls res] w2].
  destruct res as [seen_ids'|e]; [|discriminate].
  destruct (Z.of_nat (length (raw :: raws)) <? page_size self)%Z; [discriminate|].
  destruct (if float_truthy (delay self) then sleep (delay self) w2
            else (Ok tt, w2)) as [[[]|e] w3]; [|discriminate].
  simpl. apply IH. lia.
Qed.

End WalkerTraces.

Lemma pages_from_length (p : Z) (k : nat) : length (pages_from p k) = k.
Proof. unfold pages_from. rewrite length_map, length_seq. reflexivity. Qed.

(** X6: a walk requests the pages 1, 2, 3, ... of its neighbourhood, in
    this order and without a gap, and nothing else; under a ceiling it
    requests no page beyond it. *)
Theorem iterate_listings_fetches_consecutive_pages (clock : nat -> datetime)
    (fuel : nat) (self : ZapScraper) (nb : Neighborhood) (max_pages : option Z)
    (w : World) :
  let r := iterate_listings clock fuel self nb max_pages w in
  exists (k : nat) (urls : list string),
    (k <= fuel)%nat
    /\ requests (after r) = requests w ++ urls
    /\ map (_build_url self nb) (pages_from 1 k) = map Ok urls
    /\ forall m, max_pages = Some m -> (Z.of_nat k <= Z.max 0 m)%Z.
Proof.
  unfold iterate_listings.
  destruct (walk_trace clock self nb max_pages fuel 1 ∅ w)
    as (k & n & urls & Hk & Hreq & Hurls & _ & _ & _ & _ & Hm).
  exists k, urls. split; [exact Hk|]. split; [exact Hreq|]. split; [exact Hurls|].
  intros m Hmp. destruct k as [|k]; [lia|].
  assert (Hin : In (Z.of_nat (S k)) (pages_from 1 (S k))).
  { unfold pages_from. apply in_map_iff. exists k. split; [lia|].
    apply in_seq. lia. }
  specialize (Hm m Hmp _ Hin). lia.
Qed.

(** X7: under a ceiling of [m] pages the loop of a walk ends within [m + 1]
    rounds, whatever the transport answers: by returning or by raising. *)
Theorem iterate_listings_ends_under_ceiling (clock : nat -> datetime)
    (fuel : nat) (self : ZapScraper) (nb : Neighborhood) (m : Z) (w : World) :
  (Z.to_nat m < fuel)%nat ->
  stop (iterate_listings clock fuel self nb (Some m) w) <> OutOfFuel.
Proof.
  intros Hf. unfold iterate_listings.
  apply (walk_terminates clock self nb (Some m) m fuel eq_refl).
  replace (m - 1 + 1)%Z with m by lia. exact Hf.
Qed.

(** X7 on a scraper whose pages are always full, with a ceiling of two
    pages. *)
Lemma iterate_listings_ends_under_ceiling_witness :
  stop (iterate_listings sample_clock 3
          (init None 1 DEFAULT_TIMEOUT 0%float endless_transport)
          pinheiros (Some 2%Z) initial_world) <> OutOfFuel.
Proof.
  apply iterate_listings_ends_under_ceiling. simpl. lia.
Defined.

(** X8: every pause of a walk lasts [delay]; a walk pauses after a page
    only to go on to the next one, so it never pauses more often than it
    requests, and it requests at most once more than it pauses; with a delay
    of zero it never pauses. *)
Theorem iterate_listings_pauses (clock : nat -> datetime) (fuel : nat)
    (self : ZapScraper) (nb : Neighborhood) (max_pages : option Z) (w : World) :
  let r := iterate_listings clock fuel self nb max_pages w in
  let made := (length (requests (after r)) - length (requests w))%nat in
  exists n : nat,
    sleeps (after r) = sleeps w ++ repeat (delay self) n
    /\ (n <= made)%nat
    /\ (float_truthy (delay self) = true -> (made <= S n)%nat)
    /\ (float_truthy (delay self) = false -> n = 0%nat).
Proof.
  unfold iterate_listings.
  destruct (walk_trace clock self nb max_pages fuel 1 ∅ w)
    as (k & n & urls & _ & Hreq & Hurls & Hsl & Hnk & Hkn & Hn0 & _).
  assert (Hlen : length urls = k).
  { apply (f_equal (@length _)) in Hurls.
    rewrite !length_map, pages_from_length in Hurls. congruence. }
  cbv zeta. rewrite Hreq, length_app, Hlen.
  replace (length (requests w) + k - length (requests w))%nat with k by lia.
  exists n. auto.
Qed.

(** X8 on the scraper of the fixture, whose delay is 1.5 s. *)
Lemma iterate_listings_pauses_witness :
  exists n : nat,
    sleeps (after (iterate_listings sample_clock 2 fixture_scraper pinheiros
                     None initial_world))
    = repeat 1.5%float n
    /\ (1 <= S n)%nat.
Proof.
  destruct (iterate_listings_pauses sample_clock 2 fixture_scraper pinheiros
              None initial_world) as (n & Hs & _ & Hk & _).
  exists n. split; [exact Hs|]. lia.
Defined.

Lemma scrape_over_requests (clock : nat -> datetime) (fuel : nat)
    (self : ZapScraper) (max_pages : option Z) (nbs : list Neighborhood) :
  forall w,
    exists (pages : list (Neighborhood * Z)) (urls : list string),
      requests (after (scrape_over clock fuel self nbs max_pages w))
      = requests w ++ urls
      /\ map (fun np => _build_url self (fst np) (snd np)) pages = map Ok urls
      /\ Forall (fun np =>
                   In (fst np) nbs /\ (1 <= snd np)%Z
                   /\ forall m, max_pages = Some m -> (snd np <= m)%Z)
           pages.
Proof.
  induction nbs as [|nb nbs IH]; intros w; simpl.
  - exists [], []. simpl. rewrite app_nil_r. split; [reflexivity|].
    split; [reflexivity|constructor].
  - destruct (walk_trace clock self nb max_pages fuel 1 ∅ w)
      as (k & n & urls & _ & Hreq & Hurls & _ & _ & _ & _ & Hm).
    fold (iterate_listings clock fuel self nb max_pages w) in Hreq.
    assert (Hfirst : Forall (fun np =>
                       (nb = fst np \/ In (fst np) nbs) /\ (1 <= snd np)%Z
                       /\ forall m, max_pages = Some m -> (snd np <= m)%Z)
                     (map (fun p => (nb, p)) (pages_from 1 k))).
    { apply List.Forall_forall. intros np (p & <- & Hp)%in_map_iff. simpl.
      split; [auto|]. split; [apply pages_from_bounds in Hp; lia|].
      intros m Hmp. eapply Hm; eassumption. }
    assert (Hpairs : map (fun np => _build_url self (fst np) (snd np))
                       (map (fun p => (nb, p)) (pages_from 1 k))
                     = map Ok urls).
    { rewrite map_map. exact Hurls. }
    destruct (stop (iterate_listings clock fuel self nb max_pages w)).
    + destruct (IH (after (iterate_listings clock fuel self nb max_pages w)))
        as (pages & urls2 & Hreq2 & Hurls2 & Hall).
      exists (map (fun p => (nb, p)) (pages_from 1 k) ++ pages), (urls ++ urls2).
      simpl. rewrite Hreq2, Hreq, !map_app, Hpairs, Hurls2, app_assoc.
      split; [reflexivity|]. split; [reflexivity|].
      apply Forall_app. split; [exact Hfirst|].
      eapply Forall_impl; [exact Hall|]. simpl. tauto.
    + exists (map (fun p => (nb, p)) (pages_from 1 k)), urls.
      split; [exact Hreq|]. split; [exact Hpairs|exact Hfirst].
    + exists (map (fun p => (nb, p)) (pages_from 1 k)), urls.
      split; [exact Hreq|]. split; [exact Hpairs|exact Hfirst].
Qed.

(** X9: all that a run of [scrape] requests is pages of its configured
    neighbourhoods, numbered from 1 and within the ceiling when there is
    one. *)
Theorem scrape_requests_configured_neighbourhoods (clock : nat -> datetime)
    (fuel : nat) (self : ZapScraper) (max_pages : option Z) (w : World) :
  exists (pages : list (Neighborhood * Z)) (urls : list string),
    requests (after (scrape clock fuel self max_pages w)) = requests w ++ urls
    /\ map (fun np => _build_url self (fst np) (snd np)) pages = map Ok urls
    /\ Forall (fun np =>
                 In (fst np) (neighborhoods self) /\ (1 <= snd np)%Z
                 /\ forall m, max_pages = Some m -> (snd np <= m)%Z)
         pages.
Proof. unfold scrape. apply scrape_over_requests. Qed.

(* ===================================================================== *)
(** * Further properties of the store *)
(* ===================================================================== *)

(** ** ORDER BY *)

Lemma lex_ltb_asym (a : list Z) :
  forall b, lex_ltb a b = true -> lex_ltb b a = false.
Proof.
  induction a as [|x a IH]; intros [|y b]; simpl; try congruence.
  rewrite orb_true_iff, andb_true_iff, orb_false_iff, andb_false_iff,
    Z.ltb_lt, Z.ltb_ge, Z.eqb_eq, Z.eqb_neq.
  intros [H|[-> H]]; [split; [lia|left; lia]|].
  split; [lia|]. right. apply IH, H.
Qed.

Lemma lex_ltb_ntrans (a : list Z) :
  forall b c, lex_ltb b a = false -> lex_ltb c b = false -> lex_ltb c a = false.
Proof.
  induction a as [|x a IH]; intros [|y b] [|z c]; simpl; try congruence.
  rewrite !orb_false_iff, !andb_false_iff, !Z.ltb_ge, !Z.eqb_neq.
  intros [H1 H2] [H3 H4]. split; [lia|].
  destruct (Z.eq_dec z x) as [->|]; [|left; assumption].
  right. assert (y = x) by lia. subst y.
  destruct H2 as [H2|H2]; [congruence|].
  destruct H4 as [H4|H4]; [congruence|].
  eapply IH; eassumption.
Qed.

Lemma lex_ltb_total (a : list Z) :
  forall b, lex_ltb a b = false -> lex_ltb b a = false -> a = b.
Proof.
  induction a as [|x a IH]; intros [|y b]; simpl; try congruence.
  rewrite !orb_false_iff, !andb_false_iff, !Z.ltb_ge, !Z.eqb_neq.
  intros [H1 H2] [H3 H4]. assert (x = y) by lia. subst y.
  destruct H2 as [H2|H2]; [congruence|].
  destruct H4 as [H4|H4]; [congruence|].
  f_equal. apply IH; assumption.
Qed.

Section Sorting.

Context {A : Type}.
Variable ltb : A -> A -> bool.

Lemma insert_by_Permutation (x : A) (rows : list A) :
  Permutation (insert_by ltb x rows) (x :: rows).
Proof using Type.
  induction rows as [|y r IH]; simpl; [reflexivity|].
  destruct (ltb y x); [|reflexivity].
  rewrite IH. apply perm_swap.
Qed.

Lemma sort_by_Permutation (rows : list A) : Permutation (sort_by ltb rows) rows.
Proof using Type.
  induction rows as [|x r IH]; simpl; [reflexivity|].
  rewrite insert_by_Permutation, IH. reflexivity.
Qed.

Hypothesis ltb_asym : forall a b, ltb a b = true -> ltb b a = false.
Hypothesis ltb_ntrans :
  forall a b c, ltb b a = false -> ltb c b = false -> ltb c a = false.

Lemma insert_by_ascending (x : A) (rows : list A) :
  ascending ltb rows -> ascending ltb (insert_by ltb x rows).
Proof using ltb_asym ltb_ntrans.
  unfold ascending. induction rows as [|y r IH]; simpl; intros Hs.
  - repeat constructor.
  - apply StronglySorted_inv in Hs as [Hr Hy].
    destruct (ltb y x) eqn:E.
    + constructor; [apply IH, Hr|].
      rewrite List.Forall_forall in *. intros z Hz.
      apply (Permutation_in _ (insert_by_Permutation x r)) in Hz.
      destruct Hz as [<-|Hz]; [apply ltb_asym, E|apply Hy, Hz].
    + constructor; [constructor; assumption|].
      constructor; [exact E|].
      rewrite List.Forall_forall in *. intros z Hz.
      eapply ltb_ntrans; [exact E|apply Hy, Hz].
Qed.

Lemma sort_by_ascending (rows : list A) : ascending ltb (sort_by ltb rows).
Proof using ltb_asym ltb_ntrans.
  induction rows as [|x r IH]; simpl; [constructor|].
  apply insert_by_ascending, IH.
Qed.

End Sorting.

(** ** What the writes keep *)

Lemma upsert_In_conflict {R : Type} (conflict : R -> R -> bool)
    (update : R -> R -> R) (new r : R) (rows : list R) :
  In r (upsert conflict update new rows) ->
  In r rows \/ r = new
  \/ exists old, In old rows /\ conflict old new = true /\ r = update old new.
Proof.
  induction rows as [|x rows IH]; simpl.
  - intros [<-|[]]. auto.
  - destruct (conflict x new) eqn:E; simpl.
    + intros [<-|H]; [|auto]. right. right. exists x. auto.
    + intros [<-|H]; [auto|].
      apply IH in H as [H|[H|(old & H & Hc & Hr)]]; auto.
      right. right. exists old. auto.
Qed.

(** X10: the constraints of the schema (the primary key of [listings], the
    UNIQUE pair of [price_history] and its foreign key) hold on a fresh
    database and are kept by [persist_listing] and by [persist_many],
    whether the batch fails or not. *)
Theorem persist_keeps_schema (db : database) :
  db_wf db ->
  (forall l, db_wf (persist_listing db l).2)
  /\ (forall it, db_wf (persist_many db it).2).
Proof.
  intros Hwf. split.
  - intros l. rewrite persist_listing_eq.
    destruct (storable l); simpl; [apply persist_rows_wf, Hwf|exact Hwf].
  - intros it. rewrite persist_many_spec.
    destruct (batch_error it); simpl; [exact Hwf|apply persist_all_wf, Hwf].
Qed.

(** X10 on a fresh database. *)
Lemma persist_keeps_schema_witness :
  db_wf (persist_listing _ensure_schema fixture_listing).2
  /\ db_wf
       (persist_many _ensure_schema
          (Yield fixture_listing (Yield fixture_listing_again Stop))).2.
Proof.
  destruct (persist_keeps_schema _ensure_schema ensure_schema_wf) as [H1 H2].
  split; [apply H1|apply H2].
Defined.

Lemma persist_all_keeps_history (ls : list Listing) :
  forall db k,
    In k (map ph_key (price_history db)) ->
    In k (map ph_key (price_history (persist_all ls db))).
Proof.
  induction ls as [|l ls IH]; intros db k H; simpl; [exact H|].
  apply IH. rewrite persist_rows_price_history.
  apply upsert_keeps_keys; [apply price_update_key|exact H].
Qed.

(** X11: the history only grows. Persisting a listing leaves every history
    row of another (listing, capture) pair as it is, and no pair that the
    history holds leaves it, whatever is persisted afterwards, one listing or
    a batch. *)
Theorem persist_keeps_history (db : database) (l : Listing) :
  without_key ph_key (listing_id l, captured_at l)
    (price_history (persist_listing db l).2)
  = without_key ph_key (listing_id l, captured_at l) (price_history db)
  /\ forall k,
       In k (map ph_key (price_history db)) ->
       In k (map ph_key (price_history (persist_listing db l).2))
       /\ forall it, In k (map ph_key (price_history (persist_many db it).2)).
Proof.
  rewrite persist_listing_eq. split.
  - destruct (storable l); cbn [snd]; [|reflexivity].
    rewrite persist_rows_price_history.
    apply (upsert_frame ph_key price_update price_update_key (point_row l)).
  - intros k Hk. split.
    + destruct (storable l); cbn [snd]; [|exact Hk].
      rewrite persist_rows_price_history.
      apply upsert_keeps_keys; [apply price_update_key|exact Hk].
    + intros it. rewrite persist_many_spec.
      destruct (batch_error it); simpl; [exact Hk|].
      apply persist_all_keeps_history, Hk.
Qed.

Lemma persist_rows_seen_times (l : Listing) (db : database) :
  seen_times_recorded db -> seen_times_recorded (persist_rows l db).
Proof.
  intros Hdb row. rewrite persist_rows_listings, persist_rows_price_history.
  assert (Hnew : In (listing_id l, captured_at l)
                   (map ph_key
                      (upsert (key_conflict ph_key) price_update (point_row l)
                         (price_history db)))).
  { apply (upsert_has_key ph_key price_update price_update_key (point_row l)). }
  assert (Hold : forall k, In k (map ph_key (price_history db)) ->
                   In k (map ph_key
                           (upsert (key_conflict ph_key) price_update
                              (point_row l) (price_history db)))).
  { intros k. apply upsert_keeps_keys, price_update_key. }
  intros [H|[->|(old & H & Hc & ->)]]%upsert_In_conflict.
  - destruct (Hdb row H). auto.
  - simpl. auto.
  - unfold key_conflict in Hc. apply bool_decide_eq_true in Hc. simpl in Hc.
    simpl. rewrite Hc. split; [|exact Hnew].
    rewrite <- Hc. apply Hold, (Hdb old H).
Qed.

Lemma persist_all_seen_times (ls : list Listing) :
  forall db, seen_times_recorded db -> seen_times_recorded (persist_all ls db).
Proof.
  induction ls as [|l ls IH]; intros db H; simpl; [exact H|].
  apply IH, persist_rows_seen_times, H.
Qed.

(** X12: in a database filled from a fresh file, the [first_seen] and the
    [last_seen] of every snapshot row are captures that the history holds
    for that listing; [persist_listing] and [persist_many] keep it so. *)
Theorem seen_times_are_recorded :
  (forall ls, seen_times_recorded (persist_all ls _ensure_schema))
  /\ (forall db l,
        seen_times_recorded db -> seen_times_recorded (persist_listing db l).2)
  /\ (forall db it,
        seen_times_recorded db -> seen_times_recorded (persist_many db it).2).
Proof.
  split; [|split].
  - intros ls. apply persist_all_seen_times. intros row [].
  - intros db l H. rewrite persist_listing_eq.
    destruct (storable l); cbn [snd]; [apply persist_rows_seen_times, H|exact H].
  - intros db it H. rewrite persist_many_spec.
    destruct (batch_error it); simpl; [exact H|apply persist_all_seen_times, H].
Qed.

(** ** The history of a listing *)

Lemma join_other_listing (ph : price_row) (id : string) (ls : list listing_row) :
  ph_listing_id ph <> id ->
  List.filter (fun row : price_row * listing_row =>
                 bool_decide (l_listing_id (snd row) = id))
    (map (fun l => (ph, l))
       (List.filter (fun l => bool_decide (l_listing_id l = ph_listing_id ph)) ls))
  = [].
Proof.
  intros Hne. induction ls as [|x ls IH]; simpl; [reflexivity|].
  case_bool_decide as E; simpl; [|exact IH].
  rewrite bool_decide_eq_false_2 by congruence. exact IH.
Qed.

Lemma history_join (db : database) (id : string) (l : listing_row) :
  NoDup (map l_listing_id (listings db)) ->
  In l (listings db) -> l_listing_id l = id ->
  List.filter (fun row : price_row * listing_row =>
                 bool_decide (l_listing_id (snd row) = id))
    (join_listings db)
  = map (fun ph => (ph, l))
      (List.filter (fun ph => bool_decide (ph_listing_id ph = id)) (price_history db)).
Proof.
  intros Hnd Hin Hid. unfold join_listings.
  induction (price_history db) as [|ph phs IH]; simpl; [reflexivity|].
  rewrite List.filter_app, IH. case_bool_decide as E; simpl.
  - fold (with_key l_listing_id (ph_listing_id ph) (listings db)).
    rewrite (with_key_present l_listing_id _ _ l Hnd Hin) by congruence.
    simpl. rewrite bool_decide_eq_true_2 by exact Hid. reflexivity.
  - rewrite join_other_listing by exact E. reflexivity.
Qed.

Lemma join_unknown_listing (ph : price_row) (id : string) (ls : list listing_row) :
  ~ In id (map l_listing_id ls) ->
  List.filter (fun row : price_row * listing_row =>
                 bool_decide (l_listing_id (snd row) = id))
    (map (fun l => (ph, l))
       (List.filter (fun l => bool_decide (l_listing_id l = ph_listing_id ph)) ls))
  = [].
Proof.
  induction ls as [|x ls IH]; simpl; intros Hno; [reflexivity|].
  case_bool_decide as E; simpl.
  - rewrite bool_decide_eq_false_2 by tauto. apply IH. tauto.
  - apply IH. tauto.
Qed.

Lemma history_join_unknown (db : database) (id : string) :
  ~ In id (map l_listing_id (listings db)) ->
  List.filter (fun row : price_row * listing_row =>
                 bool_decide (l_listing_id (snd row) = id))
    (join_listings db)
  = [].
Proof.
  intros Hno. unfold join_listings.
  induction (price_history db) as [|ph phs IH]; simpl; [reflexivity|].
  rewrite List.filter_app, IH, app_nil_r.
  apply join_unknown_listing, Hno.
Qed.

Lemma datetime_order_asym (a b : history_row) :
  datetime_ltb (h_captured_at a) (h_captured_at b) = true ->
  datetime_ltb (h_captured_at b) (h_captured_at a) = false.
Proof. apply lex_ltb_asym. Qed.

Lemma datetime_order_ntrans (a b c : history_row) :
  datetime_ltb (h_captured_at b) (h_captured_at a) = false ->
  datetime_ltb (h_captured_at c) (h_captured_at b) = false ->
  datetime_ltb (h_captured_at c) (h_captured_at a) = false.
Proof. apply lex_ltb_ntrans. Qed.

Lemma get_listing_history_rows (db : database) (id : string) (l : listing_row) :
  NoDup (map l_listing_id (listings db)) ->
  In l (listings db) -> l_listing_id l = id ->
  Permutation (get_listing_history db id)
    (map (fun ph => history_columns (ph, l))
       (List.filter (fun ph => bool_decide (ph_listing_id ph = id))
          (price_history db))).
Proof.
  intros Hnd Hin Hid. unfold get_listing_history.
  rewrite sort_by_Permutation, (history_join db id l Hnd Hin Hid), map_map.
  reflexivity.
Qed.

(** X13: on a database that satisfies its schema, [get_listing_history]
    gives one row for each history point of the listing, by ascending
    capture time, each with the descriptive fields that the snapshot of the
    listing has now; for an identifier without snapshot it gives no row. *)
Theorem listing_history_is_sorted (db : database) (id : string) :
  db_wf db ->
  let rows := get_listing_history db id in
  ascending (fun a b => datetime_ltb (h_captured_at a) (h_captured_at b)) rows
  /\ (forall l,
        In l (listings db) -> l_listing_id l = id ->
        Permutation rows
          (map (fun ph => history_columns (ph, l))
             (List.filter (fun ph => bool_decide (ph_listing_id ph = id))
                (price_history db))))
  /\ (~ In id (map l_listing_id (listings db)) -> rows = []).
Proof.
  intros Hwf. cbv zeta. split; [|split].
  - unfold get_listing_history.
    apply sort_by_ascending; [apply datetime_order_asym|apply datetime_order_ntrans].
  - intros l. apply get_listing_history_rows, Hwf.
  - intros Hno. unfold get_listing_history.
    rewrite history_join_unknown by exact Hno. reflexivity.
Qed.

(** X13 on the database of the storage test: the two captures of "ABC123",
    in order. *)
Lemma listing_history_is_sorted_witness :
  ascending (fun a b => datetime_ltb (h_captured_at a) (h_captured_at b))
    (get_listing_history test_database "ABC123")
  /\ map h_rent_price (get_listing_history test_database "ABC123")
     = [Some 5000%float; Some 5200%float].
Proof.
  split.
  - exact (proj1 (listing_history_is_sorted test_database "ABC123" test_database_wf)).
  - vm_compute. reflexivity.
Defined.





(** ** The list of the listings *)

Lemma lex_ltb_irrefl (a : list Z) : lex_ltb a a = false.
Proof.
  destruct (lex_ltb a a) eqn:E; [|reflexivity].
  pose proof (lex_ltb_asym a a E) as H. congruence.
Qed.

Lemma by_title_asym (a b : listing_row) :
  by_title a b = true -> by_title b a = false.
Proof. apply lex_ltb_asym. Qed.

Lemma by_title_ntrans (a b c : listing_row) :
  by_title b a = false -> by_title c b = false -> by_title c a = false.
Proof. apply lex_ltb_ntrans. Qed.

Lemma by_neighborhood_title_asym (a b : listing_row) :
  by_neighborhood_title a b = true -> by_neighborhood_title b a = false.
Proof.
  unfold by_neighborhood_title, text_ltb.
  rewrite orb_true_iff, andb_true_iff, orb_false_iff, andb_false_iff,
    bool_decide_eq_true, bool_decide_eq_false.
  intros [H|[E H]].
  - split; [apply lex_ltb_asym, H|]. left. intros E. rewrite E in H.
    rewrite lex_ltb_irrefl in H. discriminate.
  - split; [rewrite E; apply lex_ltb_irrefl|]. right. apply lex_ltb_asym, H.
Qed.

Lemma by_neighborhood_title_ntrans (a b c : listing_row) :
  by_neighborhood_title b a = false -> by_neighborhood_title c b = false ->
  by_neighborhood_title c a = false.
Proof.
  unfold by_neighborhood_title, text_ltb.
  rewrite !orb_false_iff, !andb_false_iff, !bool_decide_eq_false.
  intros [N1 T1] [N2 T2]. split; [eapply lex_ltb_ntrans; eassumption|].
  destruct (decide (codes (l_neighborhood c) = codes (l_neighborhood a))) as [E|E];
    [|left; exact E].
  right.
  assert (Eb : codes (l_neighborhood a) = codes (l_neighborhood b)).
  { apply lex_ltb_total; [rewrite <- E; exact N2|exact N1]. }
  destruct T1 as [T1|T1]; [congruence|].
  destruct T2 as [T2|T2]; [congruence|].
  eapply lex_ltb_ntrans; eassumption.
Qed.

(** X15: [list_listings] gives the snapshot rows, each once: for a
    neighbourhood, the rows of that neighbourhood by ascending title; for no
    neighbourhood, all the rows by ascending neighbourhood and, within one,
    by ascending title. An empty neighbourhood is no neighbourhood. *)
Theorem list_listings_sorted (db : database) :
  (forall nb,
     nb <> "" ->
     Permutation (list_listings db (Some nb))
       (List.filter (fun l => bool_decide (l_neighborhood l = nb)) (listings db))
     /\ ascending by_title (list_listings db (Some nb)))
  /\ Permutation (list_listings db None) (listings db)
  /\ ascending by_neighborhood_title (list_listings db None)
  /\ list_listings db (Some "") = list_listings db None.
Proof.
  split; [|split; [|split]].
  - intros nb Hnb. unfold list_listings.
    destruct nb as [|ch nb]; [congruence|]. simpl str_truthy. cbv iota.
    split; [apply sort_by_Permutation|].
    apply sort_by_ascending; [apply by_title_asym|apply by_title_ntrans].
  - apply sort_by_Permutation.
  - apply sort_by_ascending;
      [apply by_neighborhood_title_asym|apply by_neighborhood_title_ntrans].
  - reflexivity.
Qed.

(** ** The daily report counts every point once *)

Lemma date_lt_irrefl (d : date) : ~ date_lt d d.
Proof. unfold date_lt. lia. Qed.

Lemma ascending_dates_NoDup (ds : list date) :
  StronglySorted date_lt ds -> NoDup ds.
Proof.
  induction 1 as [|d l Hs IH Hd]; [constructor|].
  apply NoDup_cons. split; [|exact IH].
  rewrite list_elem_of_In. intros Hin.
  rewrite List.Forall_forall in Hd. exact (date_lt_irrefl d (Hd d Hin)).
Qed.

Lemma filter_length_split {A : Type} (f : A -> bool) (l : list A) :
  length l
  = (length (List.filter f l) + length (List.filter (fun x => negb (f x)) l))%nat.
Proof.
  induction l as [|x l IH]; simpl; [reflexivity|].
  destruct (f x); simpl; lia.
Qed.

Lemma filter_other_date (d d' : date) (sel : list price_row) :
  d' <> d ->
  List.filter (fun ph => bool_decide (date_of (ph_captured_at ph) = d'))
    (List.filter (fun ph => negb (bool_decide (date_of (ph_captured_at ph) = d))) sel)
  = List.filter (fun ph => bool_decide (date_of (ph_captured_at ph) = d')) sel.
Proof.
  intros Hne. induction sel as [|ph sel IH]; simpl; [reflexivity|].
  destruct (decide (date_of (ph_captured_at ph) = d)) as [E|E].
  - rewrite (bool_decide_eq_true_2 _ E). simpl.
    rewrite bool_decide_eq_false_2 by congruence. exact IH.
  - rewrite (bool_decide_eq_false_2 _ E). simpl. rewrite IH. reflexivity.
Qed.

(** Grouping rows by date and counting each group counts each row once. *)
Lemma count_by_date (ds : list date) :
  NoDup ds ->
  forall sel : list price_row,
    (forall ph, In ph sel -> In (date_of (ph_captured_at ph)) ds) ->
    fold_right Z.add 0%Z
      (map (fun d =>
              Z.of_nat
                (length
                   (List.filter
                      (fun ph => bool_decide (date_of (ph_captured_at ph) = d)) sel)))
         ds)
    = Z.of_nat (length sel).
Proof.
  induction ds as [|d ds IH]; intros Hnd sel Hall.
  - destruct sel as [|ph sel]; [reflexivity|].
    destruct (Hall ph (or_introl eq_refl)).
  - apply NoDup_cons in Hnd as [Hd Hnd]. rewrite list_elem_of_In in Hd.
    pose proof (filter_length_split
                  (fun ph => bool_decide (date_of (ph_captured_at ph) = d)) sel)
      as Hlen.
    assert (Hrest :
              fold_right Z.add 0%Z
                (map (fun d0 =>
                        Z.of_nat
                          (length
                             (List.filter
                                (fun ph => bool_decide (date_of (ph_captured_at ph) = d0))
                                sel)))
                   ds)
              = Z.of_nat
                  (length
                     (List.filter
                        (fun ph => negb (bool_decide (date_of (ph_captured_at ph) = d)))
                        sel))).
    { rewrite <- (IH Hnd
                    (List.filter
                       (fun ph => negb (bool_decide (date_of (ph_captured_at ph) = d)))
                       sel)).
      - f_equal. apply map_ext_in. intros d' Hd'. cbv beta.
        rewrite filter_other_date; [reflexivity|].
        intros Heq. apply Hd. rewrite <- Heq. exact Hd'.
      - intros ph [Hin Hneg]%filter_In.
        destruct (Hall ph Hin) as [E|H]; [|exact H].
        rewrite bool_decide_eq_true_2 in Hneg by (symmetry; exact E).
        simpl in Hneg. discriminate. }
    cbn [map fold_right]. rewrite Hrest. lia.
Qed.

(** X16: on a database that satisfies its schema, the [listings] counts of
    the rows of [get_neighborhood_daily_average] add up to the number of
    history points considered: every such point is counted in the row of
    its date, and in no other. *)
Theorem daily_average_counts_every_point (db : database) (nb : string)
    (flag : option bool) :
  db_wf db ->
  total_listings (get_neighborhood_daily_average db nb flag)
  = Z.of_nat (length (List.filter (considered db nb flag) (price_history db))).
Proof.
  intros Hwf. unfold total_listings, get_neighborhood_daily_average.
  rewrite (selected_points db nb flag (wf_primary_key db Hwf)).
  cbv zeta. rewrite map_map. simpl.
  apply count_by_date.
  - apply ascending_dates_NoDup, sorted_dates_sorted.
  - intros ph Hin. apply sorted_dates_In.
    apply (in_map (fun ph => date_of (ph_captured_at ph))), Hin.
Qed.

(** X16 on the database of the storage test: three points of Pinheiros, on
    two days. *)
Lemma daily_average_counts_every_point_witness :
  total_listings (get_neighborhood_daily_average test_database "Pinheiros" None)
  = Z.of_nat
      (length
         (List.filter (considered test_database "Pinheiros" None)
            (price_history test_database))).
Proof.
  exact (daily_average_counts_every_point test_database "Pinheiros" None
           test_database_wf).
Defined.

(* ===================================================================== *)
(** * Properties of a collection run *)
(* ===================================================================== *)


Lemma iter_of_walked_spec (r : walked) :
  yielded (iter_of_walked r) = emitted r
  /\ raises (iter_of_walked r)
     = match stop r with
       | Raised e => Some e
       | _ => None
       end.
Proof.
  assert (Hl : forall ls, yielded (iter_of_list ls) = ls
                          /\ raises (iter_of_list ls) = None).
  { induction ls as [|l ls [IH1 IH2]]; simpl; [auto|]. rewrite IH1. auto. }
  assert (Ht : forall e ls, yielded (fold_right Yield (Throw e) ls) = ls
                            /\ raises (fold_right Yield (Throw e) ls) = Some e).
  { intros e. induction ls as [|l ls [IH1 IH2]]; simpl; [auto|]. rewrite IH1. auto. }
  unfold iter_of_walked. destruct (stop r); [apply Hl|apply Ht|apply Hl].
Qed.





Lemma resolve_neighborhoods_not_empty (custom : option (list string)) :
  _resolve_neighborhoods custom <> [].
Proof. destruct custom as [[|n r]|]; discriminate. Qed.

Lemma init_keeps_neighborhoods (nbs : list Neighborhood) (size tmo : Z)
    (dly : float) (tr : list string -> string -> response) :
  nbs <> [] -> neighborhoods (init (Some nbs) size tmo dly tr) = nbs.
Proof. destruct nbs as [|n r]; [congruence|reflexivity]. Qed.

(** X18: a run over the neighbourhoods resolved from the names of the
    command line requests nothing but pages of these names, each name
    searched as it is written, numbered from 1 and within the ceiling when
    there is one; without names, or with an empty list of them, the run is
    over the default neighbourhoods. *)
Theorem run_requests_resolved_neighbourhoods (clock : nat -> datetime)
    (fuel : nat) (network : list string -> string -> response)
    (custom : option (list string)) (dly : float) (max_pages : option Z)
    (w : World) :
  let nbs := _resolve_neighborhoods custom in
  let self := run_scraper network nbs dly in
  (exists (pages : list (Neighborhood * Z)) (urls : list string),
     requests (after (scrape clock fuel self max_pages w)) = requests w ++ urls
     /\ map (fun np => _build_url self (fst np) (snd np)) pages = map Ok urls
     /\ Forall (fun np =>
                  In (fst np) nbs /\ (1 <= snd np)%Z
                  /\ forall m, max_pages = Some m -> (snd np <= m)%Z)
          pages)
  /\ (forall names,
        custom = Some names -> names <> [] ->
        forall nb, In nb nbs <-> exists n, In n names /\ nb = mkNeighborhood n n)
  /\ (custom = None \/ custom = Some [] -> nbs = DEFAULT_NEIGHBORHOODS).
Proof.
  cbv zeta. split; [|split].
  - destruct (scrape_over_requests clock fuel
                (run_scraper network (_resolve_neighborhoods custom) dly)
                max_pages
                (neighborhoods (run_scraper network (_resolve_neighborhoods custom) dly))
                w) as (pages & urls & Hreq & Hurls & Hall).
    exists pages, urls. split; [exact Hreq|]. split; [exact Hurls|].
    unfold run_scraper in Hall.
    rewrite init_keeps_neighborhoods in Hall
      by apply resolve_neighborhoods_not_empty.
    exact Hall.
  - intros names -> Hne nb. destruct names as [|n r]; [congruence|].
    unfold _resolve_neighborhoods. rewrite in_map_iff.
    split; intros (x & H1 & H2); exists x; auto.
  - intros [->| ->]; reflexivity.
Qed.

(* ===================================================================== *)
(** * Further properties of the scraper: URLs and fallbacks *)
(* ===================================================================== *)

(** ** The URL of a page *)

Lemma list_ascii_of_string_app (a b : string) :
  list_ascii_of_string (a ++ b)
  = (list_ascii_of_string a ++ list_ascii_of_string b)%list.
Proof. induction a as [|c a IH]; simpl; [reflexivity|]. rewrite IH. reflexivity. Qed.

Lemma string_app_inv_head (a b c : string) : (a ++ b = a ++ c)%string -> b = c.
Proof. induction a as [|ch a IH]; simpl; [auto|]. intros [= H]. auto. Qed.

Lemma string_app_inv_tail (a b c : string) : (a ++ c = b ++ c)%string -> a = b.
Proof.
  intros H. apply (f_equal list_ascii_of_string) in H.
  rewrite !list_ascii_of_string_app in H. apply List.app_inv_tail in H.
  rewrite <- (string_of_list_ascii_of_string a), H.
  apply string_of_list_ascii_of_string.
Qed.

Lemma quote_plus_digits (d : Decimal.uint) :
  quote_plus (NilEmpty.string_of_uint d) = NilEmpty.string_of_uint d.
Proof.
  induction d as [|d IH|d IH|d IH|d IH|d IH|d IH|d IH|d IH|d IH|d IH];
    cbn [NilEmpty.string_of_uint quote_plus]; [reflexivity|rewrite IH; reflexivity ..].
Qed.

Lemma quote_plus_decimal (z : Z) : quote_plus (decimal z) = decimal z.
Proof.
  assert (Hu : forall d, quote_plus (NilZero.string_of_uint d) = NilZero.string_of_uint d).
  { intros d. destruct d; [reflexivity|exact (quote_plus_digits _) ..]. }
  unfold decimal, NilZero.string_of_int.
  destruct (Z.to_int z) as [d|d]; [apply Hu|].
  cbn [quote_plus]. rewrite Hu. reflexivity.
Qed.

Lemma decimal_inj (p q : Z) : decimal p = decimal q -> p = q.
Proof.
  unfold decimal. intros H.
  assert (Hn : forall z,
             NilZero.int_of_string (NilZero.string_of_int (Z.to_int z))
             = Some (Z.to_int z)).
  { intros z. apply NilZero.isi; destruct z; simpl; try discriminate;
      intros [= E]; exact (DecimalPos.Unsigned.to_uint_nonnil _ E). }
  apply (f_equal NilZero.int_of_string) in H. rewrite !Hn in H.
  injection H as H. rewrite <- (DecimalZ.of_to p), H. apply DecimalZ.of_to.
Qed.

Lemma str_of_int_Ok (z : Z) (t : string) : str_of_int z = Ok t -> t = decimal z.
Proof.
  unfold str_of_int. destruct (int_max_str_digits <? digits_of z)%nat;
    [discriminate|]. intros [= <-]. reflexivity.
Qed.

Lemma build_url_Ok (self : ZapScraper) (nb : Neighborhood) (p : Z) (u : string) :
  _build_url self nb p = Ok u ->
  u = (ZAP_API_URL ++ "?"
       ++ urlencode [ ("addressCity", "Sao Paulo");
                      ("addressState", "SP");
                      ("addressNeighborhood", query nb);
                      ("business", "RENTAL");
                      ("category", "APARTMENT");
                      ("listingType", "USED");
                      ("page", decimal p);
                      ("size", decimal (page_size self));
                      ("order", "update");
                      ("direction", "desc") ])%string.
Proof.
  unfold _build_url, _build_params.
  destruct (str_of_int p) as [tp|] eqn:Hp; [|discriminate].
  destruct (str_of_int (page_size self)) as [ts|] eqn:Hs; [|discriminate].
  apply str_of_int_Ok in Hp, Hs. subst tp ts. intros [= <-]. reflexivity.
Qed.

Lemma build_url_inj (self : ZapScraper) (nb : Neighborhood) (p q : Z) (u : string) :
  _build_url self nb p = Ok u -> _build_url self nb q = Ok u -> p = q.
Proof.
  intros Hp%build_url_Ok Hq%build_url_Ok. rewrite Hp in Hq. clear Hp.
  cbn [urlencode] in Hq.
  repeat apply string_app_inv_head in Hq.
  apply string_app_inv_tail in Hq.
  rewrite !quote_plus_decimal in Hq. apply decimal_inj, Hq.
Qed.

Lemma NoDup_map_inj {A B : Type} (f : A -> B) (l : list A) :
  (forall x y, f x = f y -> x = y) -> NoDup l -> NoDup (map f l).
Proof.
  intros Hf. induction 1 as [|x l Hx Hl IH]; simpl; constructor; [|exact IH].
  rewrite list_elem_of_In, in_map_iff. intros (y & E & Hy). apply Hf in E. subst y.
  apply Hx, list_elem_of_In, Hy.
Qed.

Lemma NoDup_map_Ok {A B : Type} (f : A -> result B) (l : list A) :
  (forall x y u, f x = Ok u -> f y = Ok u -> x = y) ->
  NoDup l -> forall us, map f l = map Ok us -> NoDup us.
Proof.
  intros Hf. induction 1 as [|x l Hx Hl IH]; intros [|u us] E;
    try discriminate; [constructor|].
  simpl in E. injection E as Hu E. constructor; [|apply IH, E].
  rewrite list_elem_of_In. intros Hin.
  apply (in_map (@Ok B)) in Hin. rewrite <- E in Hin.
  apply in_map_iff in Hin as (y & Hy & Hin).
  rewrite (Hf x y u Hu Hy) in Hx. apply Hx, list_elem_of_In, Hin.
Qed.

Lemma pages_from_NoDup (p : Z) (k : nat) : NoDup (pages_from p k).
Proof.
  unfold pages_from. apply NoDup_map_inj; [intros x y; lia|apply NoDup_seq].
Qed.

(** X19: the URLs of two different pages of a neighbourhood differ, so a
    walk never requests the same URL twice. *)
Theorem iterate_listings_never_repeats_a_request (clock : nat -> datetime)
    (fuel : nat) (self : ZapScraper) (nb : Neighborhood) (max_pages : option Z)
    (w : World) :
  (forall p q u,
     _build_url self nb p = Ok u -> _build_url self nb q = Ok u -> p = q)
  /\ exists urls : list string,
       requests (after (iterate_listings clock fuel self nb max_pages w))
       = requests w ++ urls
       /\ NoDup urls.
Proof.
  split; [apply build_url_inj|].
  unfold iterate_listings.
  destruct (walk_trace clock self nb max_pages fuel 1 ∅ w)
    as (k & n & urls & _ & Hreq & Hurls & _).
  exists urls. split; [exact Hreq|].
  apply (NoDup_map_Ok (_build_url self nb) (pages_from 1 k));
    [apply build_url_inj|apply pages_from_NoDup|exact Hurls].
Qed.

(** ** Bedrooms and rooms *)

(** X20: the bedrooms of a listing are those of the record when it gives a
    number of them other than zero, whatever it holds under "rooms"; when it
    gives none, or zero, they are what "rooms" gives. A listing thus shows
    zero bedrooms only when "rooms" gives zero. *)
Theorem zero_bedrooms_fall_back_to_rooms (clock : nat -> datetime) (raw : dict)
    (w w' : World) (l : Listing) :
  _normalise_listing clock raw w = (Ok (Some l), w') ->
  (forall z,
     _get_int (get raw "bedrooms") = Ok (Some z) -> z <> 0%Z ->
     bedrooms l = Some z)
  /\ (_get_int (get raw "bedrooms") = Ok None
      \/ _get_int (get raw "bedrooms") = Ok (Some 0%Z) ->
      _get_int (get raw "rooms") = Ok (bedrooms l))
  /\ (bedrooms l = Some 0%Z -> _get_int (get raw "rooms") = Ok (Some 0%Z)).
Proof.
  unfold _normalise_listing.
  destruct (_get_listing_id raw) as [i|]; [|unfold ret; intros [=]].
  unfold bind, lift, ret, now.
  destruct (_get_first_number (get raw "usableAreas")) as [area|]; [|intros [=]].
  destruct (_get_int (get raw "bedrooms")) as [rooms|] eqn:Hb; [|intros [=]].
  destruct (int_or rooms (_get_int (get raw "rooms"))) as [beds|] eqn:Hr;
    [|intros [=]].
  repeat match goal with
         | |- context [match ?r with Ok _ => _ | Raise _ => _ end] =>
             destruct r; [|intros [=]]
         end.
  intros [= <- <-]. simpl.
  assert (H1 : forall z, rooms = Some z -> z <> 0%Z -> beds = Some z).
  { intros z -> Hz. simpl in Hr. apply Z.eqb_neq in Hz. rewrite Hz in Hr.
    congruence. }
  assert (H2 : rooms = None \/ rooms = Some 0%Z ->
               _get_int (get raw "rooms") = Ok beds).
  { intros [->| ->]; simpl in Hr; exact Hr. }
  split; [intros z [= ->]; apply H1; reflexivity|].
  split; [intros [[= ->]|[= ->]]; apply H2; auto|].
  intros ->. destruct rooms as [z|]; [|apply H2; auto].
  destruct (Z.eq_dec z 0%Z) as [->|Hz]; [apply H2; auto|].
  specialize (H1 z eq_refl Hz). congruence.
Qed.

Lemma studio_flat_normalised :
  _normalise_listing sample_clock studio_flat initial_world
  = (Ok (Some studio_listing), tick initial_world).
Proof. vm_compute. reflexivity. Qed.

(** X20 on a record with zero bedrooms and three rooms. *)
Lemma zero_bedrooms_fall_back_to_rooms_witness :
  _get_int (get studio_flat "rooms") = Ok (bedrooms studio_listing).
Proof.
  apply (zero_bedrooms_fall_back_to_rooms sample_clock studio_flat
           initial_world (tick initial_world) studio_listing
           studio_flat_normalised).
  right. reflexivity.
Defined.
